(** * SnowCat: the polling watcher and its session refresher

    A shallow embedding of [src/SnowCat.py].  The SnowCat object is a record
    holding the two credential dictionaries and the [was_failed] bit; the
    portal (HTTP) and the browser (Playwright) are oracles supplied by the
    environment; Python exceptions are values of type [exn]. *)

From Stdlib Require Import ZArith List Ascii String.
From stdpp Require Import base strings gmap list pretty.

Open Scope string_scope.

#[local] Set Warnings "-register-all".

(** ** Python values that the program handles *)

(** A parsed JSON body, as [response.json()] hands it back.  An object is
    the parsed dict, in insertion order, its keys distinct.  Numbers are
    integers: the program compares a number with [0] and with strings and
    does nothing else with it. *)
Inductive json : Type :=
| JNull
| JBool (b : bool)
| JNum (n : Z)
| JStr (s : string)
| JArr (items : list json)
| JObj (fields : list (string * json)).

(** An id as the caller writes it: [int | str]. *)
Inductive scalar : Type :=
| SInt (n : Z)
| SStr (s : string).

(** [course_ids]: a scalar, or one of the three containers that
    [isinstance(course_ids, (list, tuple, set))] recognises.  A set is given
    by its elements in iteration order. *)
Inductive ids : Type :=
| IdScalar (x : scalar)
| IdList (xs : list scalar)
| IdTuple (xs : list scalar)
| IdSet (xs : list scalar).

(** The exceptions that can travel through the program: the three it
    raises itself, a [ValueError] remembering the exception it was made
    from, and those of the libraries ([requests], Playwright), by name. *)
Inductive exn : Type :=
| KeyError (key : string)
| TypeError
| LibraryError (name : string)
| ValueError (context : option exn).

(** The outcome of a call: a raised exception or a returned value. *)
Inductive result (A : Type) : Type :=
| Raise (e : exn)
| Return (a : A).
Arguments Raise {A} e.
Arguments Return {A} a.

(** Sequencing: an exception raised by the first statement skips the rest. *)
#[export] Instance result_bind : MBind result :=
  fun A B (k : A -> result B) (r : result A) =>
    match r with
    | Raise e => Raise e
    | Return a => k a
    end.

(** [str(x)] on an id: the decimal digits of an [int], a [str] itself. *)
Definition str (x : scalar) : string :=
  match x with
  | SInt n => pretty n
  | SStr s => s
  end.

Fixpoint lookup_field (k : string) (fields : list (string * json)) : option json :=
  match fields with
  | [] => None
  | (k', v) :: rest => if String.eqb k k' then Some v else lookup_field k rest
  end.

(** [v[k]] with a string key. *)
Definition getitem (v : json) (k : string) : result json :=
  match v with
  | JObj fields =>
      match lookup_field k fields with
      | Some x => Return x
      | None => Raise (KeyError k)
      end
  | _ => Raise TypeError
  end.

(** [v == s] for a Python string [s]. *)
Definition eq_str (v : json) (s : string) : bool :=
  match v with
  | JStr t => String.eqb t s
  | _ => false
  end.

Fixpoint is_prefix (p s : string) : bool :=
  match p, s with
  | EmptyString, _ => true
  | String a p', String b s' => if Ascii.eqb a b then is_prefix p' s' else false
  | String _ _, EmptyString => false
  end.

Fixpoint is_substring (p s : string) : bool :=
  is_prefix p s ||
  match s with
  | EmptyString => false
  | String _ s' => is_substring p s'
  end.

(** [k in v] with a string [k]. *)
Definition contains (k : string) (v : json) : result bool :=
  match v with
  | JObj fields => Return (bool_decide (is_Some (lookup_field k fields)))
  | JArr items => Return (existsb (fun x => eq_str x k) items)
  | JStr s => Return (is_substring k s)
  | _ => Raise TypeError
  end.

(** [v in l] for a list [l] of Python strings. *)
Definition in_strs (v : json) (l : list string) : bool :=
  existsb (eq_str v) l.

Fixpoint chars (s : string) : list json :=
  match s with
  | EmptyString => []
  | String a s' => JStr (String a EmptyString) :: chars s'
  end.

(** The elements that [for x in v] visits. *)
Definition iterate (v : json) : result (list json) :=
  match v with
  | JArr items => Return items
  | JObj fields => Return (map (fun kv => JStr (fst kv)) fields)
  | JStr s => Return (chars s)
  | _ => Raise TypeError
  end.

(** ** The SnowCat object *)

(** The intercepted Playwright request, as far as the program reads it:
    [req.url] and [req.all_headers()]. *)
Record request : Type := {
  url : string;
  all_headers : gmap string string
}.

(** The fields of [self] that the methods read or write after [__init__]. *)
Record SnowCat : Type := {
  params : gmap string scalar;
  headers : gmap string string;
  was_failed : bool
}.

(** The object as [__init__] leaves it. *)
Definition init : SnowCat :=
  {| params := ∅; headers := ∅; was_failed := false |}.

Definition set_params (p : gmap string scalar) (self : SnowCat) : SnowCat :=
  {| params := p; headers := headers self; was_failed := was_failed self |}.

Definition set_headers (h : gmap string string) (self : SnowCat) : SnowCat :=
  {| params := params self; headers := h; was_failed := was_failed self |}.

Definition set_was_failed (b : bool) (self : SnowCat) : SnowCat :=
  {| params := params self; headers := headers self; was_failed := b |}.

(** ** What the environment sees *)

(** The trace of a run lists the calls that leave the object: the GET, the
    logger's methods (with the fixed part of the message), the browser
    steps, the trigger, [time.sleep] and [winsound.MessageBeep]; and the
    calls of [refresh] by the loop. *)

Inductive level : Type := DEBUG | INFO | WARNING | ERROR.

(** One step of the login script that [refresh] plays in the browser. *)
Inductive ui : Type :=
| Launch | NewContext | NewPage | SetDefaultTimeout (ms : Z)
| Goto | ClickRegister | FillNetid | FillPassword | ClickLogin
| ClickTryAgain | WaitForLoad | WaitForTimeout (ms : Z) | ClickTrust
| ClickTerm | ClickFirstTerm | ClickTermGo | WaitNetworkIdle
| FillSubject (course_field : string) | WaitFirstResult | ClickFirstResult
| FillCourseNumber (course_num : string) | PressEnter | ExpectRequest
| CloseContext | CloseBrowser.

Inductive event : Type :=
| EGet (p : gmap string scalar) (h : gmap string string)
| ELog (lvl : level) (role message : string)
| ERefresh (course_field : string) (course_num : scalar)
| EUi (a : ui)
| ETrigger (response_list : json)
| ESleep (ms : Z)
| EBeep.

(** [requests.get(prefix, params=..., headers=...)] followed by [.json()]:
    the parsed body, or whatever the HTTP client raises. *)
Definition http : Type := gmap string scalar -> gmap string string -> result json.

(** ** fetch *)

(** The two shapes that [course_ids] is brought to a list of strings from. *)
Definition normalize (course_ids : ids) : list string :=
  match course_ids with
  | IdList xs | IdTuple xs | IdSet xs => map str xs
  | IdScalar x => [str x]
  end.

(** The list comprehension that keeps the candidates whose reference number
    is among [course_ids]. *)
Fixpoint select (course_ids : list string) (candidate_list : list json)
  : result (list json) :=
  match candidate_list with
  | [] => Return []
  | candidate :: rest =>
      crn ← getitem candidate "courseReferenceNumber";
      ret_list ← select course_ids rest;
      Return (if in_strs crn course_ids then candidate :: ret_list else ret_list)
  end.

(** The body of the [try] block: what it logs and how it ends. *)
Definition fetch_try (self : SnowCat) (response : json) (course_ids : option ids)
  : list event * result json :=
  match getitem response "data" with
  | Raise e => ([], Raise e)
  | Return candidate_list =>
      let reinit :=
        if was_failed self
        then [ELog INFO "fetch" "link reinitiated successfully"]
        else [] in
      match course_ids with
      | None =>
          match contains "success" response with
          | Raise e => (reinit, Raise e)
          | Return true => (reinit, Return candidate_list)
          | Return false =>
              ((reinit ++ [ELog ERROR "fetch" "failed to initiate link"])%list,
               state ← getitem response "success"; Raise (ValueError None))
          end
      | Some course_ids =>
          let course_ids := normalize course_ids in
          (reinit,
           candidates ← iterate candidate_list;
           ret_list ← select course_ids candidates;
           Return (JArr ret_list))
      end
  end.

(** [fetch]: the new object, the trace, and the value returned or the
    exception that leaves the method. *)
Definition fetch (get : http) (self : SnowCat)
    (course_abb : string) (course_num : scalar) (course_ids : option ids)
  : SnowCat * list event * result json :=
  let self :=
    set_params (<["txt_courseNumber" := course_num]>
                  (<["txt_subject" := SStr course_abb]> (params self))) self in
  let sent := EGet (params self) (headers self) in
  match get (params self) (headers self) with
  | Raise e => (self, [sent], Raise e)
  | Return response =>
      match fetch_try self response course_ids with
      | (log, Return ret) => (self, sent :: log, Return ret)
      | (log, Raise e) =>
          (self,
           sent :: (log ++ [ELog ERROR "fetch" "failed to initiate link"])%list,
           state ← getitem response "success"; Raise (ValueError (Some e)))
      end
  end.

(** ** A reference instance of [urllib.parse]

    The program calls [urlparse(req.url).query] and [parse_qs]; both belong
    to the Python library, so the program below takes them as parameters.
    This module gives the instance used to run the program on concrete
    URLs: strings are byte strings, a percent escape decodes to its byte. *)
Module Urllib.

(** [s.split(c, 1)[0]] *)
Fixpoint before (c : ascii) (s : string) : string :=
  match s with
  | EmptyString => EmptyString
  | String a s' => if Ascii.eqb a c then EmptyString else String a (before c s')
  end.

(** [s.split(c, 1)[1]], when [c] occurs in [s]. *)
Fixpoint after (c : ascii) (s : string) : option string :=
  match s with
  | EmptyString => None
  | String a s' => if Ascii.eqb a c then Some s' else after c s'
  end.

(** [s.split(c)] *)
Fixpoint split (c : ascii) (s : string) : list string :=
  match s with
  | EmptyString => [EmptyString]
  | String a s' =>
      if Ascii.eqb a c then EmptyString :: split c s'
      else match split c s' with
           | [] => [String a EmptyString]
           | w :: ws => String a w :: ws
           end
  end.

(** [s.replace('+', ' ')] *)
Fixpoint plus_to_space (s : string) : string :=
  match s with
  | EmptyString => EmptyString
  | String a s' =>
      String (if Ascii.eqb a "+" then " "%char else a) (plus_to_space s')
  end.

Definition hex_digit (a : ascii) : option N :=
  let n := N_of_ascii a in
  if (48 <=? n)%N && (n <=? 57)%N then Some (n - 48)%N
  else if (65 <=? n)%N && (n <=? 70)%N then Some (n - 55)%N
  else if (97 <=? n)%N && (n <=? 102)%N then Some (n - 87)%N
  else None.

(** [unquote]: a [%] followed by two hex digits is one byte; any other
    [%] stays. *)
Fixpoint unquote (s : string) : string :=
  match s with
  | EmptyString => EmptyString
  | String a s' =>
      if Ascii.eqb a "%" then
        match s' with
        | String h (String l s'') =>
            match hex_digit h, hex_digit l with
            | Some x, Some y => String (ascii_of_N (16 * x + y)) (unquote s'')
            | _, _ => String a (unquote s')
            end
        | _ => String a (unquote s')
        end
      else String a (unquote s')
  end.

(** [urlparse(url).query]: what lies between the first [?] and the
    fragment. *)
Definition urlparse_query (url : string) : string :=
  default "" (after "?" (before "#" url)).

(** [parse_qsl(qs)]: the pairs [name=value] with a non-blank value. *)
Definition parse_qsl (qs : string) : list (string * string) :=
  omap (fun name_value =>
          match after "=" name_value with
          | None => None
          | Some value =>
              if String.eqb value "" then None
              else Some (unquote (plus_to_space (before "=" name_value)),
                         unquote (plus_to_space value))
          end)
       (split "&" qs).

(** [parse_qs(qs)]: the values of each name, in order of appearance. *)
Definition parse_qs (qs : string) : gmap string (list string) :=
  foldl (fun parsed_result nv =>
           <[fst nv := (default [] (parsed_result !! fst nv) ++ [snd nv])%list]>
             parsed_result)
        ∅ (parse_qsl qs).

End Urllib.

(** ** The browser, as [refresh] drives it *)

Inductive locator : Type := TryAgainBtn | TrustBtn.

(** One browser session.  Every Playwright call takes one tick of the
    session's clock; what the page shows, and whether a step times out,
    depends on the tick. *)
Record page : Type := {
  is_visible : nat -> locator -> bool;
  results_count : nat -> nat;
  fails : nat -> ui -> option exn;
  req_info_value : option request
}.

(** A run either finishes, by returning or raising, or is still inside a
    [while True] when the fuel is spent. *)
Inductive outcome (A : Type) : Type :=
| Finished (r : result A)
| OutOfFuel.
Arguments Finished {A} r.
Arguments OutOfFuel {A}.

(** A piece of the browser script: from the tick it starts at to how it
    ends, the tick it ends at and the steps it played. *)
Definition script (A : Type) : Type := nat -> outcome A * nat * list event.

#[export] Instance script_ret : MRet script :=
  fun A (a : A) t => (Finished (Return a), t, []).

#[export] Instance script_bind : MBind script :=
  fun A B (k : A -> script B) (m : script A) t =>
    match m t with
    | (Finished (Return a), t', tr) =>
        match k a t' with
        | (o, t'', tr') => (o, t'', (tr ++ tr')%list)
        end
    | (Finished (Raise e), t', tr) => (Finished (Raise e), t', tr)
    | (OutOfFuel, t', tr) => (OutOfFuel, t', tr)
    end.

Definition out_of_fuel {A} : script A := fun t => (OutOfFuel, t, []).

(** [locator.is_visible()] *)
Definition visible (pg : page) (l : locator) : script bool :=
  fun t => (Finished (Return (is_visible pg t l)), S t, []).

(** [results.count()] *)
Definition count (pg : page) : script nat :=
  fun t => (Finished (Return (results_count pg t)), S t, []).

(** Any other Playwright call: it is played, and may raise. *)
Definition act (pg : page) (a : ui) : script unit :=
  fun t =>
    (Finished (match fails pg t a with Some e => Raise e | None => Return tt end),
     S t, [EUi a]).

(** Python's [x and y] and [not x]. *)
Definition and_ (x y : script bool) : script bool :=
  a ← x; if a : bool then y else mret false.

Definition not_ (x : script bool) : script bool :=
  a ← x; mret (negb a).

(** One pass through the body of the two-factor loop; [true] is [break]. *)
Definition duo_pass (pg : page) (timeout : Z) : script bool :=
  retry ← and_ (visible pg TryAgainBtn) (not_ (visible pg TrustBtn));
  if retry : bool then
    act pg ClickTryAgain;; act pg WaitForLoad;; mret false
  else
    pending ← and_ (not_ (visible pg TryAgainBtn)) (not_ (visible pg TrustBtn));
    if pending : bool then
      act pg (WaitForTimeout (Z.max 10 (timeout / 10)));; mret false
    else
      trusted ← and_ (not_ (visible pg TryAgainBtn)) (visible pg TrustBtn);
      if trusted : bool then act pg ClickTrust;; mret true
      else mret false.

(** Step 4: [while True] over [duo_pass]. *)
Fixpoint duo_wait (fuel : nat) (pg : page) (timeout : Z) : script unit :=
  match fuel with
  | 0 => out_of_fuel
  | S fuel' =>
      done ← duo_pass pg timeout;
      if done : bool then mret tt else duo_wait fuel' pg timeout
  end.

(** Step 7: wait until exactly one suggestion is left, then click it. *)
Fixpoint pick_subject (fuel : nat) (pg : page) (timeout : Z) : script unit :=
  match fuel with
  | 0 => out_of_fuel
  | S fuel' =>
      n ← count pg;
      if Nat.eqb n 1 then act pg ClickFirstResult
      else act pg (WaitForTimeout (Z.max 10 (timeout / 100)));;
           pick_subject fuel' pg timeout
  end.

(** Steps 0 to 7 of [refresh]: everything inside [with sync_playwright()]
    up to [req = req_info.value]. *)
Definition login_and_search (fuel : nat) (pg : page)
    (course_field : string) (course_num : scalar) (timeout : Z)
  : script (option request) :=
  act pg Launch;; act pg NewContext;; act pg NewPage;;
  act pg (SetDefaultTimeout timeout);;
  act pg Goto;;
  act pg ClickRegister;;
  act pg FillNetid;; act pg FillPassword;; act pg ClickLogin;;
  duo_wait fuel pg timeout;;
  act pg ClickTerm;; act pg ClickFirstTerm;; act pg ClickTermGo;;
  act pg WaitNetworkIdle;;
  act pg (FillSubject course_field);; act pg WaitFirstResult;;
  pick_subject fuel pg timeout;;
  act pg (FillCourseNumber (str course_num));; act pg PressEnter;;
  act pg ExpectRequest;;
  mret (req_info_value pg).

(** ** The default trigger *)

(** [x > 0] on a parsed value. *)
Definition gt_zero (v : json) : result bool :=
  match v with
  | JNum n => Return (0 <? n)%Z
  | JBool b => Return b
  | _ => Raise TypeError
  end.

(** [hash(v)] succeeds on everything but lists and dicts. *)
Definition hashable (v : json) : result unit :=
  match v with
  | JArr _ | JObj _ => Raise TypeError
  | _ => Return tt
  end.

(** The [for] loop of the default trigger: the value of [alarm] after it. *)
Fixpoint any_seat (alarm : bool) (candidate_list : list json) : result bool :=
  match candidate_list with
  | [] => Return alarm
  | candidate :: rest =>
      seats ← getitem candidate "seatsAvailable";
      crn ← getitem candidate "courseReferenceNumber";
      hashable crn;;
      seats ← getitem candidate "seatsAvailable";
      open ← gt_zero seats;
      any_seat (if open : bool then true else alarm) rest
  end.

Definition beeps : list event :=
  concat (replicate 5 [EBeep; ESleep 1500]).

(** What a trigger does with a fetched list: its trace and how it ends. *)
Definition trigger : Type := json -> list event * result unit.

Definition default_trigger : trigger :=
  fun candidate_list =>
    match candidates ← iterate candidate_list; any_seat false candidates with
    | Raise e => ([], Raise e)
    | Return true =>
        (ELog WARNING "SnowCat" "Course available with spots" :: beeps, Return tt)
    | Return false =>
        ([ELog DEBUG "SnowCat" "Course available with spots"], Return tt)
    end.

(** ** refresh and watch *)

(** The loop's state at the head of an iteration: the object, and how
    many GETs and refreshes the world has served. *)
Record loop_state : Type := {
  cat : SnowCat;
  gets : nat;
  refreshes : nat
}.

Inductive step_result : Type :=
| Continue (s : loop_state)
| Stop (o : outcome unit) (s : loop_state).

(** What the trace says was called. *)
Definition is_trigger (e : event) : bool :=
  match e with ETrigger _ => true | _ => false end.

Definition is_refresh (e : event) : bool :=
  match e with ERefresh _ _ => true | _ => false end.

(** ** Vocabulary of the properties *)

(** A trace in which neither the trigger nor [refresh] is called. *)
Definition plain (tr : list event) : Prop :=
  Forall (fun e => is_trigger e = false /\ is_refresh e = false) tr.

(** A piece of script that plays browser steps and nothing else. *)
Definition quiet {A} (m : script A) : Prop :=
  forall t, Forall (fun e => exists a, e = EUi a) (m t).2.

(** A piece of script all of whose steps are browser steps satisfying [P]. *)
Definition plays {A} (P : ui -> Prop) (m : script A) : Prop :=
  forall t, Forall (fun e => exists a, e = EUi a /\ P a) (m t).2.

(** The two steps that release the browser. *)
Definition closes (a : ui) : Prop := a = CloseContext \/ a = CloseBrowser.

(** The idle wait of the two-factor loop and the poll of the subject
    search. *)
Definition idle_wait (timeout : Z) : event :=
  EUi (WaitForTimeout (Z.max 10 (timeout / 10))).

Definition poll_wait (timeout : Z) : event :=
  EUi (WaitForTimeout (Z.max 10 (timeout / 100))).

(** A piece of script that, if it returns, returns [v]. *)
Definition yields {A} (m : script A) (v : A) : Prop :=
  forall t a t' tr, m t = (Finished (Return a), t', tr) -> a = v.

(** The ids that a [course_ids] argument holds. *)
Definition members (course_ids : ids) : list scalar :=
  match course_ids with
  | IdScalar x => [x]
  | IdList xs | IdTuple xs | IdSet xs => xs
  end.

(** An integer and the string of its decimal digits are the same id. *)
Definition same_id (x y : scalar) : Prop := str x = str y.

(** Two arguments express the same ids, whatever the container and the
    order, and however often an id is repeated. *)
Definition same_ids (c1 c2 : ids) : Prop :=
  (forall x, In x (members c1) -> exists y, In y (members c2) /\ same_id x y) /\
  (forall y, In y (members c2) -> exists x, In x (members c1) /\ same_id x y).

(** The candidate carries a reference number that is one of [course_ids]. *)
Definition crn_among (course_ids : list string) (candidate : json) : bool :=
  match getitem candidate "courseReferenceNumber" with
  | Return crn => in_strs crn course_ids
  | Raise _ => false
  end.

Definition has_crn (candidate : json) : Prop :=
  exists crn, getitem candidate "courseReferenceNumber" = Return crn.

(** A candidate the default trigger can read: a reference number that can
    be a dict key, and a number of seats. *)
Definition countable_seats (candidate : json) : Prop :=
  exists crn seats,
    getitem candidate "courseReferenceNumber" = Return crn /\
    hashable crn = Return tt /\
    getitem candidate "seatsAvailable" = Return (JNum seats).

(** The candidate reports at least one free seat. *)
Definition has_seat (candidate : json) : bool :=
  match getitem candidate "seatsAvailable" with
  | Return (JNum seats) => (0 <? seats)%Z
  | _ => false
  end.

Definition is_sleep (e : event) : bool :=
  match e with ESleep _ => true | _ => false end.

(** The loop state an iteration ends in. *)
Definition state_of (r : step_result) : loop_state :=
  match r with
  | Continue s => s
  | Stop _ s => s
  end.

(** The three query params the program ever writes. *)
Definition written_keys : list string :=
  ["txt_subject"; "txt_courseNumber"; "uniqueSessionId"].

(** A trace without [time.sleep]. *)
Definition awake (tr : list event) : Prop :=
  Forall (fun e => is_sleep e = false) tr.

(** ** The logger ([src/logger.py])

    [time.strftime] is the environment's: every method that may print
    takes the current stamp as [now].  A method gives back the logger, the
    lines it printed and the text it returns. *)
Module Logger.

Record t : Type := {
  level : Z;
  last_time_stamp : option string
}.

Definition level_map : gmap string Z :=
  {["DEBUG" := 0%Z; "INFO" := 1%Z; "WARNING" := 2%Z; "ERROR" := 3%Z]}.

(** [Logger(level=...)]: [self.level_map[level]] raises on an unknown name. *)
Definition __init__ (lvl : string) : result t :=
  match level_map !! lvl with
  | Some n => Return {| level := n; last_time_stamp := None |}
  | None => Raise (KeyError lvl)
  end.

Definition set_level (self : t) (lvl : string) : result t :=
  match level_map !! lvl with
  | Some n => Return {| level := n; last_time_stamp := last_time_stamp self |}
  | None => Raise (KeyError lvl)
  end.

(** [' ' * n] *)
Fixpoint spaces (n : nat) : string :=
  match n with
  | 0 => ""
  | S n' => String " " (spaces n')
  end.

(** The property [_time_stamp]: the stamp when it is new, blanks of its
    width when it is the one shown last. *)
Definition _time_stamp (self : t) (now : string) : t * string :=
  match last_time_stamp self with
  | Some last =>
      if String.eqb last now then (self, spaces (String.length now))
      else ({| level := level self; last_time_stamp := Some now |}, now)
  | None => ({| level := level self; last_time_stamp := Some now |}, now)
  end.

Definition _role (role : string) : string := "[" ++ role ++ "]".

(** [f"{level:9s}"]: left-aligned in a field of nine. *)
Definition _level (name : string) : string :=
  name ++ spaces (9 - String.length name).

Definition _do_print (self : t) (level_digit : Z) : bool :=
  (level self <=? level_digit)%Z.

Definition esc : string := String (ascii_of_nat 27) "".

Definition _red (text : string) : string := esc ++ "[91m" ++ text ++ esc ++ "[0m".
Definition _green (text : string) : string := esc ++ "[92m" ++ text ++ esc ++ "[0m".
Definition _yellow (text : string) : string := esc ++ "[93m" ++ text ++ esc ++ "[0m".
Definition _blue (text : string) : string := esc ++ "[94m" ++ text ++ esc ++ "[0m".

Definition info (self : t) (now role message : string) : t * list string * string :=
  if _do_print self 1 then
    let '(self, stamp) := _time_stamp self now in
    let text := stamp ++ " " ++ _blue (_level "INFO") ++ _role role ++ ": " ++ message in
    (self, [text], text)
  else (self, [], "").

Definition debug (self : t) (now role message : string) : t * list string * string :=
  if _do_print self 0 then
    let '(self, stamp) := _time_stamp self now in
    let text := stamp ++ " " ++ _green (_level "DEBUG") ++ _role role ++ ": " ++ message in
    (self, [text], text)
  else (self, [], "").

Definition warning (self : t) (now role message : string) : t * list string * string :=
  if _do_print self 2 then
    let '(self, stamp) := _time_stamp self now in
    let text := stamp ++ " " ++ _yellow (_level "WARNING") ++ _role role ++ ": " ++ message in
    (self, [text], text)
  else (self, [], "").

Definition error (self : t) (now role message : string) : t * list string * string :=
  if _do_print self 3 then
    let '(self, stamp) := _time_stamp self now in
    let text := stamp ++ " " ++ _red (_level "ERROR") ++ _role role ++ ": " ++ message in
    (self, [text], text)
  else (self, [], "").

(** The four printing methods, by the digit they print from. *)
Definition methods : list (Z * (t -> string -> string -> string -> t * list string * string)) :=
  [(0%Z, debug); (1%Z, info); (2%Z, warning); (3%Z, error)].

End Logger.

(** ** Sample bodies, pages and arguments *)

Module Sample.

Definition section (crn : string) (seats : Z) : json :=
  JObj [("courseReferenceNumber", JStr crn); ("seatsAvailable", JNum seats)].

(** [{"success": false, "data": [...]}] *)
Definition unsuccessful : json :=
  JObj [("success", JBool false);
        ("data", JArr [section "31375" 0; section "31376" 2])].

(** [{"success": true, "data": [...]}] *)
Definition successful : json :=
  JObj [("success", JBool true);
        ("data", JArr [section "31375" 0; section "31376" 2])].

(** [{"data": []}]: the [success] field is missing. *)
Definition no_success : json := JObj [("data", JArr [])].

(** [{"success": false}]: the [data] field is missing. *)
Definition no_data : json := JObj [("success", JBool false)].

Definition answers (body : json) : http := fun _ _ => Return body.

(** A successful body whose second entry has no [seatsAvailable]. *)
Definition no_seats : json :=
  JObj [("success", JBool true);
        ("data", JArr [section "31375" 3;
                       JObj [("courseReferenceNumber", JStr "31376")]])].

(** A successful body whose second entry has no [courseReferenceNumber]. *)
Definition no_crn : json :=
  JObj [("success", JBool true);
        ("data", JArr [section "31375" 3; JObj [("seatsAvailable", JNum 1)]])].

(** The intercepted search request of the portal, with a session id. *)
Definition intercepted : request :=
  {| url := "https://banner.apps.uillinois.edu/StudentRegistrationSSB/ssb/searchResults/searchResults?txt_subject=CS&txt_courseNumber=421&uniqueSessionId=abc123&foo=1";
     all_headers := {["cookie" := "JSESSIONID=fresh"]} |}.

(** The same request without a session id. *)
Definition no_session : request :=
  {| url := "https://banner.apps.uillinois.edu/StudentRegistrationSSB/ssb/searchResults/searchResults?txt_subject=CS&txt_courseNumber=421";
     all_headers := {["cookie" := "JSESSIONID=fresh"]} |}.

(** An object that has fetched and been refreshed before. *)
Definition used : SnowCat :=
  {| params := {["txt_subject" := SStr "CS"; "txt_courseNumber" := SInt 421;
                 "uniqueSessionId" := SStr "old"]};
     headers := {["cookie" := "JSESSIONID=stale"]};
     was_failed := true |}.

(** An object after a failed fetch of CS 421 and a refresh that
    intercepted [intercepted]. *)
Definition refreshed : SnowCat :=
  {| params := {["txt_subject" := SStr "CS"; "txt_courseNumber" := SInt 421;
                 "uniqueSessionId" := SStr "abc123"]};
     headers := {["cookie" := "JSESSIONID=fresh"]};
     was_failed := true |}.

(** The same with the failure bit clear. *)
Definition recovered : SnowCat := set_was_failed false refreshed.

(** A session in which the trust button shows at once, the subject search
    has one suggestion, and no step times out. *)
Definition smooth (req : option request) : page :=
  {| is_visible := fun _ l => match l with TrustBtn => true | TryAgainBtn => false end;
     results_count := fun _ => 1;
     fails := fun _ _ => None;
     req_info_value := req |}.

(** A session in which the login click times out. *)
Definition rejected : page :=
  {| is_visible := fun _ _ => false;
     results_count := fun _ => 1;
     fails := fun _ a =>
       match a with
       | ClickLogin => Some (LibraryError "TimeoutError")
       | _ => None
       end;
     req_info_value := None |}.

(** A smooth session whose [context.close()] fails. *)
Definition close_fails : page :=
  {| is_visible := fun _ l => match l with TrustBtn => true | TryAgainBtn => false end;
     results_count := fun _ => 1;
     fails := fun _ a =>
       match a with
       | CloseContext => Some (LibraryError "Error")
       | _ => None
       end;
     req_info_value := Some intercepted |}.

(** A session whose subject search shows three suggestions at the first
    two polls and one from then on. *)
Definition narrowing : page :=
  {| is_visible := fun _ l => match l with TrustBtn => true | TryAgainBtn => false end;
     results_count := fun t => if bool_decide (t < 4) then 3 else 1;
     fails := fun _ _ => None;
     req_info_value := Some intercepted |}.

(** A session stuck with the retry and the trust button both showing. *)
Definition both_visible : page :=
  {| is_visible := fun _ _ => true;
     results_count := fun _ => 1;
     fails := fun _ _ => None;
     req_info_value := Some intercepted |}.

(** A session that shows neither button during the first two passes of
    the two-factor loop (four ticks each, when it starts at tick 0) and the
    trust button from then on. *)
Definition approved_later : page :=
  {| is_visible := fun t l =>
       match l with TrustBtn => bool_decide (8 <= t) | TryAgainBtn => false end;
     results_count := fun _ => 1;
     fails := fun _ _ => None;
     req_info_value := Some intercepted |}.

(** A portal that rejects the first GET, accepts the second and rejects
    the next two. *)
Definition flaky : nat -> http :=
  fun n _ _ =>
    match n with
    | 0 | 2 | 3 => Return no_data
    | _ => Return successful
    end.

(** A portal that rejects every GET. *)
Definition down : nat -> http := fun _ => answers no_data.

End Sample.

Section Program.

(** [urlparse(u).query] and [parse_qs], from [urllib.parse]. *)
Variable urlparse_query : string -> string.
Variable parse_qs : string -> gmap string (list string).

Definition _update_headers_from_request (self : SnowCat) (req : option request)
  : SnowCat :=
  match req with
  | None => self
  | Some req => set_headers (all_headers req) self
  end.

Definition _update_params_from_request (self : SnowCat) (req : option request)
  : SnowCat :=
  match req with
  | None => self
  | Some req =>
      let qs := parse_qs (urlparse_query (url req)) in
      match qs !! "uniqueSessionId" with
      | Some (first :: _) =>
          set_params (<["uniqueSessionId" := SStr first]> (params self)) self
      | Some [] | None => self
      end
  end.

(** [refresh]: the object it leaves, how it ends, and its trace. *)
Definition refresh (fuel : nat) (pg : page) (self : SnowCat)
    (course_field : string) (course_num : scalar) (timeout : Z)
  : SnowCat * outcome unit * list event :=
  let start := ELog INFO "refresh" "Token is expired, start fetching new token" in
  match login_and_search fuel pg course_field course_num timeout 0 with
  | (Finished (Return req), t, tr) =>
      let self := _update_headers_from_request self req in
      let self := _update_params_from_request self req in
      match (act pg CloseContext;; act pg CloseBrowser) t with
      | (Finished (Return _), _, tr') =>
          (self, Finished (Return tt),
           start :: (tr ++ tr' ++
                     [ELog INFO "refresh" "Token successfully refreshed"])%list)
      | (Finished (Raise e), _, tr') =>
          (self, Finished (Raise e), start :: (tr ++ tr')%list)
      | (OutOfFuel, _, tr') => (self, OutOfFuel, start :: (tr ++ tr')%list)
      end
  | (Finished (Raise e), _, tr) => (self, Finished (Raise e), start :: tr)
  | (OutOfFuel, _, tr) => (self, OutOfFuel, start :: tr)
  end.

(** The world around one [watch] call: the portal's answer to the n-th
    GET, the browser session of the n-th refresh, and how long a browser
    loop is followed. *)
Variable portal : nat -> http.
Variable browser : nat -> page.
Variable patience : nat.

(** The arguments of [watch]. *)
Variable course_field : string.
Variable course_abb : string.
Variable course_num : scalar.
Variable course_ids : option ids.
Variable on_trigger : option trigger.
Variable interval : Z.
Variable timeout : Z.

(** The longest sleep, in seconds, that the platform's timer takes. *)
Variable sleep_max : Z.

(** [time.sleep(secs)]: a negative length is refused with [ValueError],
    one beyond the timer's range with [OverflowError]. *)
Definition sleep (secs : Z) : result unit :=
  if (secs <? 0)%Z then Raise (ValueError None)
  else if (sleep_max <? secs)%Z then Raise (LibraryError "OverflowError")
  else Return tt.

(** What [self.fetch(course_abb, course_num, course_ids)] does at the
    head of an iteration. *)
Definition fetch_at (s : loop_state) : SnowCat * list event * result json :=
  fetch (portal (gets s)) (cat s) course_abb course_num course_ids.

Definition refresh_at (s : loop_state) (self : SnowCat)
  : SnowCat * outcome unit * list event :=
  refresh patience (browser (refreshes s)) self course_field course_num timeout.

(** One iteration of [while True]. *)
Definition watch_step (s : loop_state) : step_result * list event :=
  let on_trigger := default default_trigger on_trigger in
  match fetch_at s with
  | (self, tr, Return response_list) =>
      let self := set_was_failed false self in
      let s' := {| cat := self; gets := S (gets s); refreshes := refreshes s |} in
      match on_trigger response_list with
      | (tr', Return _) =>
          match sleep interval with
          | Return _ =>
              (Continue s',
               (tr ++ ETrigger response_list :: tr'
                   ++ [ESleep (interval * 1000)])%list)
          | Raise e =>
              (Stop (Finished (Raise e)) s',
               (tr ++ ETrigger response_list :: tr')%list)
          end
      | (tr', Raise e) =>
          (Stop (Finished (Raise e)) s',
           (tr ++ ETrigger response_list :: tr')%list)
      end
  | (self, tr, Raise e) =>
      if was_failed self then
        (Stop (Finished (Return tt))
           {| cat := self; gets := S (gets s); refreshes := refreshes s |},
         (tr ++ [ELog ERROR "SnowCat" "Exit due to"; EBeep])%list)
      else
        let self := set_was_failed true self in
        match refresh_at s self with
        | (self, o, tr') =>
            let s' := {| cat := self; gets := S (gets s);
                         refreshes := S (refreshes s) |} in
            (match o with
             | Finished (Return _) => Continue s'
             | _ => Stop o s'
             end,
             (tr ++ ERefresh course_field course_num :: tr')%list)
        end
  end.

(** [watch]: the loop, followed for [fuel] iterations. *)
Fixpoint watch (fuel : nat) (s : loop_state)
  : outcome unit * loop_state * list event :=
  match fuel with
  | 0 => (OutOfFuel, s, [])
  | S fuel' =>
      match watch_step s with
      | (Continue s', tr) =>
          match watch fuel' s' with
          | (o, s'', tr') => (o, s'', (tr ++ tr')%list)
          end
      | (Stop o s', tr) => (o, s', tr)
      end
  end.


(** The state at the head of the [n]-th iteration from [s], with the trace
    up to there, when the loop gets that far. *)
Fixpoint head_of_iteration (n : nat) (s : loop_state)
  : option (loop_state * list event) :=
  match n with
  | 0 => Some (s, [])
  | S n' =>
      match watch_step s with
      | (Continue s', tr) =>
          match head_of_iteration n' s' with
          | Some (s'', tr') => Some (s'', (tr ++ tr')%list)
          | None => None
          end
      | (Stop _ _, _) => None
      end
  end.

(** The iteration at [s] ends the loop by [return], and calls neither
    the trigger nor [refresh] on the way. *)
Definition aborts (s : loop_state) : Prop :=
  exists s' tr,
    watch_step s = (Stop (Finished (Return tt)) s', tr) /\
    List.filter is_refresh tr = [] /\ List.filter is_trigger tr = [].

(** The iteration at [s] treats its failure as a first one: it sets the
    bit, calls [refresh] once and no trigger, and ends the loop only if
    [refresh] itself does not return. *)
Definition recovers (s : loop_state) : Prop :=
  exists self' o tr,
    let s' := {| cat := self'; gets := S (gets s); refreshes := S (refreshes s) |} in
    watch_step s
    = (match o with Finished (Return _) => Continue s' | _ => Stop o s' end, tr) /\
    was_failed self' = true /\
    List.filter is_refresh tr = [ERefresh course_field course_num] /\
    List.filter is_trigger tr = [].

(** ** Properties of fetch *)

Lemma in_strs_spec (v : json) (l : list string) :
  in_strs v l = true <-> exists s, v = JStr s /\ In s l.
Proof.
  unfold in_strs. rewrite existsb_exists. split.
  - intros (s & Hs & Heq). destruct v; simpl in Heq; try discriminate.
    apply String.eqb_eq in Heq. subst. eauto.
  - intros (s & -> & Hs). exists s. split; [done|]. simpl. apply String.eqb_refl.
Qed.

Lemma in_strs_ext (v : json) (l1 l2 : list string) :
  (forall s, In s l1 <-> In s l2) -> in_strs v l1 = in_strs v l2.
Proof.
  intros Hext. apply eq_true_iff_eq. rewrite !in_strs_spec.
  split; intros (s & -> & Hs); exists s; split; try done; by apply Hext.
Qed.

Lemma select_ext (l1 l2 : list string) (candidate_list : list json) :
  (forall s, In s l1 <-> In s l2) ->
  select l1 candidate_list = select l2 candidate_list.
Proof.
  intros Hext. induction candidate_list as [|candidate rest IH]; simpl; [done|].
  destruct (getitem candidate "courseReferenceNumber") as [e|crn]; simpl; [done|].
  rewrite IH. by rewrite (in_strs_ext crn l1 l2 Hext).
Qed.

Lemma normalize_members (c : ids) : normalize c = map str (members c).
Proof. by destruct c. Qed.

Lemma same_ids_normalize (c1 c2 : ids) :
  same_ids c1 c2 -> forall s, In s (normalize c1) <-> In s (normalize c2).
Proof.
  intros [H12 H21] s. rewrite !normalize_members, !in_map_iff. split.
  - intros (x & <- & Hx). destruct (H12 x Hx) as (y & Hy & Hxy).
    exists y. by split.
  - intros (y & <- & Hy). destruct (H21 y Hy) as (x & Hx & Hxy).
    exists x. by split.
Qed.

(** On well-formed candidates the comprehension is a plain filter. *)
Lemma select_filter (wanted : list string) (candidate_list : list json) :
  Forall has_crn candidate_list ->
  select wanted candidate_list
  = Return (List.filter (crn_among wanted) candidate_list).
Proof.
  induction 1 as [|candidate rest [crn Hcrn] _ IH]; simpl; [done|].
  unfold crn_among at 1. rewrite Hcrn, IH. simpl.
  by destruct (in_strs crn wanted).
Qed.

(** The object that [fetch] leaves, whatever the portal answers. *)
Lemma fetch_self (get : http) (self : SnowCat) abb num cids :
  (fetch get self abb num cids).1.1
  = set_params (<["txt_courseNumber" := num]>
                  (<["txt_subject" := SStr abb]> (params self))) self.
Proof.
  unfold fetch. destruct (get _ _) as [e|response]; [done|].
  by destruct (fetch_try _ _ _) as [log [e|ret]].
Qed.

(** How [fetch] ends on a parsed body: the [try] block's own result, or
    what the handler makes of its exception. *)
Lemma fetch_result (get : http) (self : SnowCat) abb num cids response :
  let sent := set_params (<["txt_courseNumber" := num]>
                            (<["txt_subject" := SStr abb]> (params self))) self in
  get (params sent) (headers sent) = Return response ->
  (fetch get self abb num cids).2
  = match (fetch_try sent response cids).2 with
    | Return ret => Return ret
    | Raise e => state ← getitem response "success"; Raise (ValueError (Some e))
    end.
Proof.
  intros sent Hget. unfold fetch. fold sent. rewrite Hget.
  by destruct (fetch_try _ _ _) as [log [e|ret]].
Qed.

(** C9: every call to [fetch], however it ends, leaves the object with
    [txt_subject] and [txt_courseNumber] written into its query params
    (and nothing else touched), and these written params are the ones the
    GET, the first thing in the trace, was sent with; a raised error does
    not restore the old params. *)
Theorem fetch_writes_params (get : http) (self : SnowCat)
    (abb : string) (num : scalar) (cids : option ids) :
  let written := <["txt_courseNumber" := num]>
                   (<["txt_subject" := SStr abb]> (params self)) in
  let out := fetch get self abb num cids in
  params out.1.1 = written /\
  params out.1.1 !! "txt_subject" = Some (SStr abb) /\
  params out.1.1 !! "txt_courseNumber" = Some num /\
  headers out.1.1 = headers self /\
  was_failed out.1.1 = was_failed self /\
  hd_error out.1.2 = Some (EGet written (headers self)) /\
  (forall e, get written (headers self) = Raise e -> out.2 = Raise e).
Proof.
  intros written out. subst out. rewrite fetch_self. simpl. fold written.
  repeat split.
  - unfold written. rewrite lookup_insert_ne by done. apply lookup_insert_eq.
  - apply lookup_insert_eq.
  - unfold fetch. simpl. fold written.
    destruct (get _ _) as [e|response]; [done|].
    by destruct (fetch_try _ _ _) as [log [e|ret]].
  - intros e He. unfold fetch. simpl. fold written. by rewrite He.
Qed.

(** C6: two [course_ids] arguments that express the same ids, as a
    scalar, a list, a tuple or a set, with an integer and its decimal
    string being the same id, make [fetch] behave identically: same
    object, same trace, same returned list or raised error. *)
Theorem fetch_ids_form_irrelevant (get : http) (self : SnowCat)
    (abb : string) (num : scalar) (c1 c2 : ids) :
  same_ids c1 c2 ->
  fetch get self abb num (Some c1) = fetch get self abb num (Some c2).
Proof.
  intros Hsame. pose proof (same_ids_normalize c1 c2 Hsame) as Hext.
  unfold fetch. destruct (get _ _) as [e|response]; [done|].
  unfold fetch_try. destruct (getitem response "data") as [e|candidate_list]; [done|].
  destruct (iterate candidate_list) as [e|candidates]; simpl; [done|].
  by rewrite (select_ext _ _ candidates Hext).
Qed.

(** C1, as the code has it: on a body whose [success] is false, [fetch]
    raises the wrapped [ValueError] whenever [data] is missing, with
    [course_ids] unset or set; with [course_ids] set it never looks at
    [success]: it returns the entries of [data] whose reference number
    is among the ids, and wraps whatever the filtering raises. *)
Theorem fetch_unsuccessful (get : http) (self : SnowCat)
    (abb : string) (num : scalar) (cids : option ids) (response : json) :
  let written := <["txt_courseNumber" := num]>
                   (<["txt_subject" := SStr abb]> (params self)) in
  get written (headers self) = Return response ->
  getitem response "success" = Return (JBool false) ->
  let r := (fetch get self abb num cids).2 in
  (forall e, getitem response "data" = Raise e ->
     r = Raise (ValueError (Some e))) /\
  (forall wanted candidate_list,
     cids = Some wanted ->
     getitem response "data" = Return (JArr candidate_list) ->
     Forall has_crn candidate_list ->
     r = Return (JArr (List.filter (crn_among (normalize wanted)) candidate_list))) /\
  (forall wanted candidate_list e,
     cids = Some wanted ->
     getitem response "data" = Return candidate_list ->
     (candidates ← iterate candidate_list; select (normalize wanted) candidates)
     = Raise e ->
     r = Raise (ValueError (Some e))).
Proof.
  intros written Hget Hsuccess r. subst r.
  rewrite (fetch_result get self abb num cids response Hget).
  rewrite Hsuccess. unfold fetch_try. repeat split.
  - intros e ->. done.
  - intros wanted candidate_list -> -> Hwf. simpl.
    by rewrite (select_filter _ _ Hwf).
  - intros wanted candidate_list e -> -> Hraise. simpl.
    destruct (iterate candidate_list) as [e'|candidates]; simpl in *.
    + by inversion Hraise.
    + by rewrite Hraise.
Qed.

(** When the [try] block fails on a body that has no [success] to read,
    the handler fails in turn, and its own exception is what leaves
    [fetch]. *)
Lemma fetch_handler_reads_success (get : http) (self : SnowCat)
    abb num cids response e e' :
  let sent := set_params (<["txt_courseNumber" := num]>
                            (<["txt_subject" := SStr abb]> (params self))) self in
  get (params sent) (headers sent) = Return response ->
  (fetch_try sent response cids).2 = Raise e ->
  getitem response "success" = Raise e' ->
  (fetch get self abb num cids).2 = Raise e'.
Proof.
  intros sent Hget Htry Hsuccess.
  rewrite (fetch_result get self abb num cids response Hget).
  fold sent. by rewrite Htry, Hsuccess.
Qed.

(** C2 on a body without a [success] field: no [ValueError] ever leaves
    [fetch].  With [course_ids] unset it raises the bare [KeyError] of the
    read of [response['success']]; with [course_ids] set it raises that
    [KeyError] too, unless the filtering went through, and then it
    returns as if nothing were missing. *)
Theorem fetch_missing_success_unwrapped (get : http) (self : SnowCat)
    (abb : string) (num : scalar) (fields : list (string * json)) :
  let written := <["txt_courseNumber" := num]>
                   (<["txt_subject" := SStr abb]> (params self)) in
  get written (headers self) = Return (JObj fields) ->
  lookup_field "success" fields = None ->
  (fetch get self abb num None).2 = Raise (KeyError "success") /\
  (forall wanted,
     (fetch get self abb num (Some wanted)).2 = Raise (KeyError "success") \/
     exists ret_list, (fetch get self abb num (Some wanted)).2 = Return (JArr ret_list)).
Proof.
  intros written Hget Hmissing.
  assert (getitem (JObj fields) "success" = Raise (KeyError "success")) as Hread
    by (simpl; by rewrite Hmissing).
  split; [|intros wanted];
    rewrite (fetch_result get self abb num _ (JObj fields) Hget);
    rewrite Hread; unfold fetch_try.
  - destruct (getitem (JObj fields) "data") as [e|candidate_list]; [done|].
    cbn [contains]. rewrite Hmissing.
    rewrite bool_decide_eq_false_2 by (by intros [x Hx]).
    cbn [snd]. by rewrite Hread.
  - destruct (getitem (JObj fields) "data") as [e|candidate_list]; [by left|].
    cbn [snd]. destruct (iterate candidate_list) as [e|candidates]; [by left|].
    simpl. destruct (select (normalize wanted) candidates) as [e|ret_list];
      [by left|]. right. by exists ret_list.
Qed.

(** ** The browser script *)

Lemma quiet_ret {A} (a : A) : quiet (mret a).
Proof. intros t. constructor. Qed.

Lemma quiet_bind {A B} (m : script A) (k : A -> script B) :
  quiet m -> (forall a, quiet (k a)) -> quiet (m ≫= k).
Proof.
  intros Hm Hk t. unfold mbind, script_bind. specialize (Hm t).
  destruct (m t) as [[[[e|a]|] t'] tr]; simpl in *; try done.
  specialize (Hk a t'). destruct (k a t') as [[o t''] tr']; simpl in *.
  by apply Forall_app.
Qed.

Lemma quiet_out_of_fuel {A} : quiet (@out_of_fuel A).
Proof. intros t. constructor. Qed.

Lemma quiet_visible pg l : quiet (visible pg l).
Proof. intros t. constructor. Qed.

Lemma quiet_count pg : quiet (count pg).
Proof. intros t. constructor. Qed.

Lemma quiet_act pg a : quiet (act pg a).
Proof. intros t. repeat constructor. by exists a. Qed.

Create HintDb script.
Hint Resolve quiet_ret quiet_out_of_fuel quiet_visible quiet_count quiet_act
  : script.

Ltac quiet_steps :=
  repeat first
    [ apply quiet_bind; [|intros ?]
    | match goal with |- quiet (if ?b then _ else _) => destruct b end
    | solve [auto with script] ].

Lemma quiet_and (x y : script bool) : quiet x -> quiet y -> quiet (and_ x y).
Proof. intros Hx Hy. unfold and_. quiet_steps; auto. Qed.

Lemma quiet_not (x : script bool) : quiet x -> quiet (not_ x).
Proof. intros Hx. unfold not_. quiet_steps; auto. Qed.

Hint Resolve quiet_and quiet_not : script.

Lemma quiet_duo_pass pg ms : quiet (duo_pass pg ms).
Proof. unfold duo_pass. quiet_steps. Qed.

Lemma quiet_duo_wait fuel pg ms : quiet (duo_wait fuel pg ms).
Proof.
  induction fuel as [|fuel IH]; simpl; [auto with script|].
  apply quiet_bind; [apply quiet_duo_pass|]. intros []; auto with script.
Qed.

Lemma quiet_pick_subject fuel pg ms : quiet (pick_subject fuel pg ms).
Proof.
  induction fuel as [|fuel IH]; simpl; [auto with script|].
  apply quiet_bind; [auto with script|]. intros n.
  destruct (Nat.eqb n 1); [auto with script|].
  apply quiet_bind; auto with script.
Qed.

Hint Resolve quiet_duo_wait quiet_pick_subject : script.

Lemma quiet_login_and_search fuel pg field num ms :
  quiet (login_and_search fuel pg field num ms).
Proof. unfold login_and_search. quiet_steps. Qed.

Lemma yields_ret {A} (v : A) : yields (mret v) v.
Proof. intros t a t' tr Heq. by inversion Heq. Qed.

Lemma yields_bind {A B} (m : script A) (k : A -> script B) (v : B) :
  (forall a, yields (k a) v) -> yields (m ≫= k) v.
Proof.
  intros Hk t b t' tr. unfold mbind, script_bind.
  destruct (m t) as [[[[e|a]|] t1] tr1]; try done.
  destruct (k a t1) as [[o t2] tr2] eqn:Hka. intros Heq.
  inversion Heq; subst. by eapply Hk.
Qed.

(** If the script gets to its end, what it hands over is the
    intercepted request. *)
Lemma login_and_search_yields fuel pg field num ms :
  yields (login_and_search fuel pg field num ms) (req_info_value pg).
Proof.
  unfold login_and_search.
  repeat (apply yields_bind; intros ?). apply yields_ret.
Qed.

(** ** The credential updates *)

Lemma update_headers_was_failed self req :
  was_failed (_update_headers_from_request self req) = was_failed self.
Proof. by destruct req. Qed.

Lemma update_headers_params self req :
  params (_update_headers_from_request self req) = params self.
Proof. by destruct req. Qed.

Lemma update_params_was_failed self req :
  was_failed (_update_params_from_request self req) = was_failed self.
Proof.
  destruct req as [req|]; [|done]. simpl.
  by destruct (parse_qs _ !! _) as [[|first rest]|].
Qed.

Lemma update_params_headers self req :
  headers (_update_params_from_request self req) = headers self.
Proof.
  destruct req as [req|]; [|done]. simpl.
  by destruct (parse_qs _ !! _) as [[|first rest]|].
Qed.

(** The object a [refresh] leaves is the old one, or the old one put
    through the two updates. *)
Lemma refresh_self fuel pg self field num ms :
  (refresh fuel pg self field num ms).1.1 = self \/
  exists req t tr,
    login_and_search fuel pg field num ms 0 = (Finished (Return req), t, tr) /\
    (refresh fuel pg self field num ms).1.1
    = _update_params_from_request (_update_headers_from_request self req) req.
Proof.
  unfold refresh.
  destruct (login_and_search _ _ _ _ _ 0) as [[[[e|req]|] t] tr] eqn:Hrun;
    [by left| |by left].
  right. exists req, t, tr. split; [done|].
  by destruct ((act pg CloseContext;; act pg CloseBrowser) t) as [[[[e|[]]|] t'] tr'].
Qed.

Lemma refresh_was_failed fuel pg self field num ms :
  was_failed (refresh fuel pg self field num ms).1.1 = was_failed self.
Proof.
  destruct (refresh_self fuel pg self field num ms) as [->|(req & t & tr & _ & ->)];
    [done|].
  by rewrite update_params_was_failed, update_headers_was_failed.
Qed.

(** C7: when the query of the intercepted URL has [uniqueSessionId] with
    a non-empty value list, its first value, and no other, is stored under
    the key [uniqueSessionId] and no other key changes; when it has not,
    the params stay as they are: the key is not added, with an empty
    string or otherwise. *)
Theorem session_id_extraction (self : SnowCat) (req : request) :
  let qs := parse_qs (urlparse_query (url req)) in
  let after := params (_update_params_from_request self (Some req)) in
  match qs !! "uniqueSessionId" with
  | Some (first :: _) =>
      after !! "uniqueSessionId" = Some (SStr first) /\
      after = <["uniqueSessionId" := SStr first]> (params self)
  | Some [] | None =>
      after = params self /\
      (params self !! "uniqueSessionId" = None -> after !! "uniqueSessionId" = None)
  end.
Proof.
  simpl. destruct (parse_qs _ !! _) as [[|first rest]|]; simpl; try done.
  split; [apply lookup_insert_eq | done].
Qed.

(** C5, as the code has it: after a [refresh] that returns, with an
    intercepted request in hand, the headers are exactly the request's
    headers, whatever they were before; the query params are the previous
    ones, kept key by key, with [uniqueSessionId] alone overwritten by the
    first value the request's URL gives it, if it gives one. *)
Theorem refresh_credentials (fuel : nat) (pg : page) (self self' : SnowCat)
    (field : string) (num : scalar) (ms : Z) (tr : list event) (req : request) :
  req_info_value pg = Some req ->
  refresh fuel pg self field num ms = (self', Finished (Return tt), tr) ->
  headers self' = all_headers req /\
  params self'
  = match parse_qs (urlparse_query (url req)) !! "uniqueSessionId" with
    | Some (first :: _) => <["uniqueSessionId" := SStr first]> (params self)
    | _ => params self
    end /\
  (forall k, k <> "uniqueSessionId" -> params self' !! k = params self !! k).
Proof.
  intros Hreq Hrun.
  assert (self' = _update_params_from_request
                    (_update_headers_from_request self (Some req)) (Some req))
    as ->.
  { unfold refresh in Hrun.
    destruct (login_and_search _ _ _ _ _ 0) as [[[[e|req']|] t] tr'] eqn:Hscript;
      [done| |done].
    apply login_and_search_yields in Hscript. subst req'. rewrite Hreq in Hrun.
    destruct ((act pg CloseContext;; act pg CloseBrowser) t)
      as [[[[e|[]]|] t'] tr'']; by inversion Hrun. }
  simpl. destruct (parse_qs _ !! _) as [[|first rest]|]; simpl; repeat split; try done.
  intros k Hk. by rewrite lookup_insert_ne.
Qed.

(** C10: on a missing request both updates return the object as it is;
    so a [refresh] whose script got to its end with no request in hand,
    and whose browser closes, returns with the object unchanged. *)
Theorem updates_ignore_missing_request (self : SnowCat) :
  _update_headers_from_request self None = self /\
  _update_params_from_request self None = self /\
  (forall fuel pg field num ms t tr,
     login_and_search fuel pg field num ms 0 = (Finished (Return None), t, tr) ->
     fails pg t CloseContext = None ->
     fails pg (S t) CloseBrowser = None ->
     (refresh fuel pg self field num ms).1 = (self, Finished (Return tt))).
Proof.
  repeat split.
  intros fuel pg field num ms t tr Hscript Hctx Hbrowser.
  unfold refresh. rewrite Hscript. unfold mbind, script_bind, act.
  by rewrite Hctx, Hbrowser.
Qed.

(** ** The watch loop *)

Lemma plain_filter (tr : list event) :
  plain tr -> List.filter is_refresh tr = [] /\ List.filter is_trigger tr = [].
Proof.
  induction 1 as [|e tr [Htrig Hrefr] _ [IH1 IH2]]; simpl; [done|].
  by rewrite Htrig, Hrefr.
Qed.

Lemma quiet_plain {A} (m : script A) (t : nat) : quiet m -> plain (m t).2.
Proof.
  intros Hm. eapply Forall_impl; [apply (Hm t)|]. by intros e [a ->].
Qed.

Lemma fetch_trace_plain (get : http) self abb num cids :
  plain (fetch get self abb num cids).1.2.
Proof.
  unfold fetch, fetch_try. simpl.
  destruct (get _ _) as [e|response]; [by repeat constructor|].
  destruct (getitem response "data") as [e|candidate_list];
    [by repeat constructor|].
  destruct (was_failed self), cids as [wanted|]; simpl.
  - destruct (_ ≫= _); by repeat constructor.
  - destruct (contains "success" response) as [e|[]]; simpl;
      try destruct (getitem response "success"); by repeat constructor.
  - destruct (_ ≫= _); by repeat constructor.
  - destruct (contains "success" response) as [e|[]]; simpl;
      try destruct (getitem response "success"); by repeat constructor.
Qed.

Lemma refresh_trace_plain fuel pg self field num ms :
  plain (refresh fuel pg self field num ms).2.
Proof.
  unfold refresh.
  pose proof (quiet_plain _ 0 (quiet_login_and_search fuel pg field num ms)) as Hrun.
  destruct (login_and_search _ _ _ _ _ 0) as [[[[e|req]|] t] tr]; simpl in *;
    try by constructor.
  assert (quiet (act pg CloseContext;; act pg CloseBrowser)) as Hclose
    by (apply quiet_bind; auto with script).
  apply (quiet_plain _ t) in Hclose.
  destruct ((act pg CloseContext;; act pg CloseBrowser) t)
    as [[[[e|[]]|] t'] tr']; simpl in *;
    constructor; try done; repeat (apply Forall_app; split); try done.
  by repeat constructor.
Qed.

(** What an iteration does when its fetch fails with the failure bit
    already set: it logs, beeps and returns, calling nothing else. *)
Lemma watch_step_abort (s : loop_state) (e : exn) :
  (fetch_at s).2 = Raise e ->
  was_failed (cat s) = true ->
  exists s' tr,
    watch_step s = (Stop (Finished (Return tt)) s', tr) /\
    was_failed (cat s') = true /\
    List.filter is_refresh tr = [] /\ List.filter is_trigger tr = [].
Proof.
  intros Hfail Hbit. unfold watch_step.
  pose proof (fetch_self (portal (gets s)) (cat s) course_abb course_num course_ids)
    as Hself.
  pose proof (fetch_trace_plain (portal (gets s)) (cat s) course_abb course_num
                course_ids) as Hplain.
  fold (fetch_at s) in Hself, Hplain.
  destruct (fetch_at s) as [[self tr] r]; simpl in *. subst r self. simpl.
  rewrite Hbit. eexists _, _. split; [done|]. split; [done|].
  apply plain_filter. apply Forall_app. split; [done|]. by repeat constructor.
Qed.

(** What an iteration does when its fetch fails with the failure bit
    clear: it sets the bit and calls [refresh], once; the loop goes on
    exactly when [refresh] returns. *)
Lemma watch_step_recover (s : loop_state) (e : exn) :
  (fetch_at s).2 = Raise e ->
  was_failed (cat s) = false ->
  exists self' o tr,
    refresh_at s (set_was_failed true (fetch_at s).1.1) = (self', o, tr) /\
    let s' := {| cat := self'; gets := S (gets s); refreshes := S (refreshes s) |} in
    watch_step s
    = (match o with Finished (Return _) => Continue s' | _ => Stop o s' end,
       ((fetch_at s).1.2 ++ ERefresh course_field course_num :: tr)%list) /\
    was_failed self' = true /\
    List.filter is_refresh ((fetch_at s).1.2 ++ ERefresh course_field course_num :: tr)
    = [ERefresh course_field course_num] /\
    List.filter is_trigger ((fetch_at s).1.2 ++ ERefresh course_field course_num :: tr)
    = [].
Proof.
  intros Hfail Hbit. unfold watch_step.
  pose proof (fetch_self (portal (gets s)) (cat s) course_abb course_num course_ids)
    as Hself.
  pose proof (fetch_trace_plain (portal (gets s)) (cat s) course_abb course_num
                course_ids) as Hplain.
  fold (fetch_at s) in Hself, Hplain.
  destruct (fetch_at s) as [[self tr] r]; simpl in *. subst r self. simpl.
  rewrite Hbit.
  pose proof (refresh_was_failed patience (browser (refreshes s))
                (set_was_failed true
                   (set_params (<["txt_courseNumber" := course_num]>
                                  (<["txt_subject" := SStr course_abb]>
                                     (params (cat s)))) (cat s)))
                course_field course_num timeout) as Hkeep.
  pose proof (refresh_trace_plain patience (browser (refreshes s))
                (set_was_failed true
                   (set_params (<["txt_courseNumber" := course_num]>
                                  (<["txt_subject" := SStr course_abb]>
                                     (params (cat s)))) (cat s)))
                course_field course_num timeout) as Hquiet.
  unfold refresh_at. revert Hkeep Hquiet.
  destruct (refresh _ _ _ _ _ _) as [[self' o] tr']; simpl. intros Hkeep Hquiet.
  exists self', o, tr'. split; [done|]. split; [done|]. split; [done|].
  rewrite !List.filter_app. simpl.
  destruct (plain_filter _ Hplain) as [-> ->].
  destruct (plain_filter _ Hquiet) as [-> ->]. done.
Qed.

(** What an iteration does when its fetch succeeds: it clears the bit and
    calls the trigger. *)
Lemma watch_step_success (s : loop_state) (response_list : json) :
  (fetch_at s).2 = Return response_list ->
  exists s' tr,
    (watch_step s = (Continue s', tr) \/
     exists e, watch_step s = (Stop (Finished (Raise e)) s', tr)) /\
    was_failed (cat s') = false /\
    In (ETrigger response_list) tr.
Proof.
  intros Hok. unfold watch_step.
  destruct (fetch_at s) as [[self tr] r]; simpl in *. subst r.
  destruct (default default_trigger on_trigger response_list) as [tr' [e|[]]];
    [|destruct (sleep interval) as [e|[]]]; eexists _, _.
  - split; [right; by eexists|]. split; [done|].
    apply in_or_app. right. by left.
  - split; [right; by eexists|]. split; [done|].
    apply in_or_app. right. by left.
  - split; [by left|]. split; [done|].
    apply in_or_app. right. by left.
Qed.

Lemma failure_with_bit_aborts (s : loop_state) (e : exn) :
  (fetch_at s).2 = Raise e -> was_failed (cat s) = true -> aborts s.
Proof.
  intros Hfail Hbit.
  destruct (watch_step_abort s e Hfail Hbit) as (s' & tr & Hstep & _ & Hr & Ht).
  by exists s', tr.
Qed.

Lemma failure_without_bit_recovers (s : loop_state) (e : exn) :
  (fetch_at s).2 = Raise e -> was_failed (cat s) = false -> recovers s.
Proof.
  intros Hfail Hbit.
  destruct (watch_step_recover s e Hfail Hbit)
    as (self' & o & tr & _ & Hstep & Hkeep & Hr & Ht).
  by exists self', o, ((fetch_at s).1.2 ++ ERefresh course_field course_num :: tr)%list.
Qed.

Lemma recovers_not_fatal (s : loop_state) :
  recovers s -> forall s' tr, watch_step s <> (Stop (Finished (Return tt)) s', tr).
Proof.
  intros (self' & o & tr & Hstep & _) s' tr' Heq. rewrite Hstep in Heq.
  by destruct o as [[e|[]]|]; inversion Heq.
Qed.

Lemma recovers_continues (s s1 : loop_state) (tr1 : list event) :
  recovers s -> watch_step s = (Continue s1, tr1) ->
  was_failed (cat s1) = true /\
  List.filter is_refresh tr1 = [ERefresh course_field course_num] /\
  List.filter is_trigger tr1 = [].
Proof.
  intros (self' & o & tr & Hstep & Hbit & Hr & Ht) Hcont. rewrite Hstep in Hcont.
  destruct o as [[e|[]]|]; inversion Hcont; subst. done.
Qed.

Lemma watch_from_head (n : nat) (s0 s : loop_state) (pre : list event) :
  head_of_iteration n s0 = Some (s, pre) ->
  forall fuel,
    watch (n + fuel) s0
    = ((watch fuel s).1.1, (watch fuel s).1.2, (pre ++ (watch fuel s).2)%list).
Proof.
  revert s0 pre. induction n as [|n IH]; simpl; intros s0 pre Hhead fuel.
  - inversion Hhead; subst. by destruct (watch fuel s) as [[o s'] tr].
  - destruct (watch_step s0) as [[s'|o s'] tr]; [|done].
    destruct (head_of_iteration n s') as [[s'' tr']|] eqn:Hrest; [|done].
    inversion Hhead; subst. rewrite (IH _ _ Hrest fuel). simpl.
    by rewrite app_assoc.
Qed.

(** C3: wherever the loop stands ([s], the head of the [n]-th iteration
    of a run from [s0]), if the fetch fails there, the loop goes on, and
    the next fetch fails too, then that second iteration returns: it calls
    neither the trigger nor [refresh], the first one called [refresh]
    exactly once and no trigger, and with fuel for these two iterations
    [watch] has returned. *)
Theorem two_failures_terminate (n : nat) (s0 s s1 : loop_state)
    (pre tr1 : list event) (e1 e2 : exn) :
  head_of_iteration n s0 = Some (s, pre) ->
  (fetch_at s).2 = Raise e1 ->
  watch_step s = (Continue s1, tr1) ->
  (fetch_at s1).2 = Raise e2 ->
  exists s2 tr2,
    watch_step s1 = (Stop (Finished (Return tt)) s2, tr2) /\
    List.filter is_refresh tr2 = [] /\
    List.filter is_trigger tr2 = [] /\
    List.filter is_refresh tr1 = [ERefresh course_field course_num] /\
    List.filter is_trigger tr1 = [] /\
    forall fuel,
      watch (n + S (S fuel)) s0
      = (Finished (Return tt), s2, (pre ++ tr1 ++ tr2)%list).
Proof.
  intros Hhead Hfail1 Hstep1 Hfail2.
  assert (recovers s) as Hrec.
  { destruct (was_failed (cat s)) eqn:Hbit.
    - destruct (failure_with_bit_aborts s e1 Hfail1 Hbit) as (s' & tr & Habort & _).
      rewrite Habort in Hstep1. done.
    - by eapply failure_without_bit_recovers. }
  destruct (recovers_continues s s1 tr1 Hrec Hstep1) as (Hbit1 & Hr1 & Ht1).
  destruct (failure_with_bit_aborts s1 e2 Hfail2 Hbit1) as (s2 & tr2 & Hstep2 & Hr2 & Ht2).
  exists s2, tr2. repeat (split; [done|]).
  intros fuel. rewrite (watch_from_head n s0 s pre Hhead). simpl.
  by rewrite Hstep1, Hstep2.
Qed.

(** C4: the failure bit moves as follows.  A fetch that succeeds leaves
    it clear, whatever it was.  A fetch that fails with the bit clear sets
    it and calls [refresh]; one that fails with the bit set ends the loop.
    Hence, after a failure, a [refresh] that returned and a fetch that
    succeeded, the bit is clear again, and a failure of the next fetch is
    treated as a first one: [refresh] is called, the loop does not return. *)
Theorem was_failed_transitions :
  (forall s : loop_state,
     match (fetch_at s).2 with
     | Return response_list =>
         exists s' tr,
           (watch_step s = (Continue s', tr) \/
            exists e, watch_step s = (Stop (Finished (Raise e)) s', tr)) /\
           was_failed (cat s') = false
     | Raise e => if was_failed (cat s) then aborts s else recovers s
     end) /\
  (forall (s0 s1 s2 : loop_state) (tr0 tr1 : list event) e0 ret e2,
     (fetch_at s0).2 = Raise e0 ->
     watch_step s0 = (Continue s1, tr0) ->
     (fetch_at s1).2 = Return ret ->
     watch_step s1 = (Continue s2, tr1) ->
     (fetch_at s2).2 = Raise e2 ->
     was_failed (cat s0) = false /\
     was_failed (cat s1) = true /\
     was_failed (cat s2) = false /\
     recovers s2 /\
     forall s' tr, watch_step s2 <> (Stop (Finished (Return tt)) s', tr)).
Proof.
  split.
  - intros s. destruct (fetch_at s).2 as [e|response_list] eqn:Hfetch.
    + destruct (was_failed (cat s)) eqn:Hbit.
      * by eapply failure_with_bit_aborts.
      * by eapply failure_without_bit_recovers.
    + destruct (watch_step_success s response_list Hfetch) as (s' & tr & Hstep & Hbit & _).
      by exists s', tr.
  - intros s0 s1 s2 tr0 tr1 e0 ret e2 Hfail0 Hstep0 Hok1 Hstep1 Hfail2.
    assert (was_failed (cat s0) = false) as Hbit0.
    { destruct (was_failed (cat s0)) eqn:Hbit; [|done].
      destruct (failure_with_bit_aborts s0 e0 Hfail0 Hbit) as (s' & tr & Habort & _).
      rewrite Habort in Hstep0. done. }
    pose proof (failure_without_bit_recovers s0 e0 Hfail0 Hbit0) as Hrec0.
    destruct (recovers_continues s0 s1 tr0 Hrec0 Hstep0) as (Hbit1 & _).
    assert (was_failed (cat s2) = false) as Hbit2.
    { destruct (watch_step_success s1 ret Hok1) as (s' & tr & [Hstep|[e Hstep]] & Hbit & _);
        rewrite Hstep in Hstep1; by inversion Hstep1; subst. }
    pose proof (failure_without_bit_recovers s2 e2 Hfail2 Hbit2) as Hrec2.
    repeat (split; [done|]). by apply recovers_not_fatal.
Qed.

(** ** The two-factor loop *)

(** A pass that sees the retry button, then the trust button, then the
    retry button twice more, takes no branch. *)
Lemma duo_pass_both_visible (pg : page) (ms : Z) (t : nat) :
  is_visible pg t TryAgainBtn = true ->
  is_visible pg (S t) TrustBtn = true ->
  is_visible pg (S (S t)) TryAgainBtn = true ->
  is_visible pg (S (S (S t))) TryAgainBtn = true ->
  duo_pass pg ms t = (Finished (Return false), 4 + t, []).
Proof.
  intros H1 H2 H3 H4.
  unfold duo_pass, and_, not_, visible, mbind, script_bind, mret, script_ret.
  rewrite H1. simpl. rewrite H2. simpl. rewrite H3. simpl. by rewrite H4.
Qed.

Lemma duo_wait_stuck (pg : page) (ms : Z) :
  (forall u l, is_visible pg u l = true) ->
  forall fuel t, duo_wait fuel pg ms t = (OutOfFuel, 4 * fuel + t, []).
Proof.
  intros Hboth. induction fuel as [|fuel IH]; intros t; [done|].
  cbn [duo_wait]. unfold mbind at 1, script_bind.
  rewrite duo_pass_both_visible by apply Hboth.
  rewrite IH. f_equal. f_equal. lia.
Qed.

(** The loop is left by the trust click alone, and that click is made
    only after the retry button was seen hidden and the trust button
    showing. *)
Lemma duo_pass_break (pg : page) (ms : Z) (t t' : nat) (o : outcome bool)
    (tr : list event) :
  duo_pass pg ms t = (o, t', tr) ->
  In (EUi ClickTrust) tr ->
  exists u, t <= u /\ is_visible pg u TryAgainBtn = false /\
            is_visible pg (S u) TrustBtn = true /\
            tr = [EUi ClickTrust].
Proof.
  unfold duo_pass, and_, not_, visible, act, mbind, script_bind, mret, script_ret.
  destruct (is_visible pg t TryAgainBtn) eqn:H1; simpl.
  - destruct (is_visible pg (S t) TrustBtn) eqn:H2; simpl.
    + destruct (is_visible pg (S (S t)) TryAgainBtn) eqn:H3; simpl.
      * destruct (is_visible pg (S (S (S t))) TryAgainBtn) eqn:H4; simpl.
        -- intros Heq; inversion Heq; subst. intros [].
        -- destruct (is_visible pg (S (S (S (S t)))) TrustBtn) eqn:H5; simpl.
           ++ destruct (fails pg _ ClickTrust); intros Heq; inversion Heq; subst;
                intros _; exists (S (S (S t))); repeat split; try done; lia.
           ++ intros Heq; inversion Heq; subst. intros [].
      * destruct (is_visible pg (S (S (S t))) TrustBtn) eqn:H4; simpl.
        -- destruct (is_visible pg (S (S (S (S t)))) TryAgainBtn) eqn:H5; simpl.
           ++ intros Heq; inversion Heq; subst. intros [].
           ++ destruct (is_visible pg (S (S (S (S (S t))))) TrustBtn) eqn:H6; simpl.
              ** destruct (fails pg _ ClickTrust); intros Heq; inversion Heq; subst;
                   intros _; exists (S (S (S (S t)))); repeat split; try done; lia.
              ** intros Heq; inversion Heq; subst. intros [].
        -- destruct (fails pg _ (WaitForTimeout _)); intros Heq; inversion Heq; subst;
             intros [Habs|[]]; discriminate.
    + destruct (fails pg _ ClickTryAgain); simpl.
      * intros Heq; inversion Heq; subst. intros [Habs|[]]; discriminate.
      * destruct (fails pg _ WaitForLoad); intros Heq; inversion Heq; subst;
          intros [Habs|[Habs|[]]]; discriminate.
  - destruct (is_visible pg (S t) TryAgainBtn) eqn:H2; simpl.
    + destruct (is_visible pg (S (S t)) TryAgainBtn) eqn:H3; simpl.
      * intros Heq; inversion Heq; subst. intros [].
      * destruct (is_visible pg (S (S (S t))) TrustBtn) eqn:H4; simpl.
        -- destruct (fails pg _ ClickTrust); intros Heq; inversion Heq; subst;
             intros _; exists (S (S t)); repeat split; try done; lia.
        -- intros Heq; inversion Heq; subst. intros [].
    + destruct (is_visible pg (S (S t)) TrustBtn) eqn:H3; simpl.
      * destruct (is_visible pg (S (S (S t))) TryAgainBtn) eqn:H4; simpl.
        -- intros Heq; inversion Heq; subst. intros [].
        -- destruct (is_visible pg (S (S (S (S t)))) TrustBtn) eqn:H5; simpl.
           ++ destruct (fails pg _ ClickTrust); intros Heq; inversion Heq; subst;
                intros _; exists (S (S (S t))); repeat split; try done; lia.
           ++ intros Heq; inversion Heq; subst. intros [].
      * destruct (fails pg _ (WaitForTimeout _)); intros Heq; inversion Heq; subst;
          intros [Habs|[]]; discriminate.
Qed.

Lemma duo_wait_stuck_from (pg : page) (ms : Z) (fuel : nat) :
  forall t,
    (forall u l, t <= u -> is_visible pg u l = true) ->
    duo_wait fuel pg ms t = (OutOfFuel, 4 * fuel + t, []).
Proof.
  induction fuel as [|fuel IH]; intros t Hboth; [done|].
  cbn [duo_wait]. unfold mbind at 1, script_bind.
  rewrite duo_pass_both_visible by (apply Hboth; lia).
  rewrite IH by (intros u l Hu; apply Hboth; lia).
  f_equal. f_equal. lia.
Qed.

(** C8, as the code has it.  A pass of the two-factor loop that sees the
    retry and the trust button both showing (the retry button, then the
    trust button, then the retry button at each of the two remaining
    conditions) takes none of the three branches: it clicks nothing and
    waits for nothing, and four observations later the loop polls again.
    As long as both buttons stay showing, the loop is never left.  And a
    pass clicks the trust button only after it has seen the retry button
    hidden and, right after, the trust button showing. *)
Theorem both_visible_spins (pg : page) (ms : Z) (t : nat) :
  (is_visible pg t TryAgainBtn = true ->
   is_visible pg (S t) TrustBtn = true ->
   is_visible pg (S (S t)) TryAgainBtn = true ->
   is_visible pg (S (S (S t))) TryAgainBtn = true ->
   duo_pass pg ms t = (Finished (Return false), 4 + t, [])) /\
  ((forall u l, t <= u -> is_visible pg u l = true) ->
   forall fuel, duo_wait fuel pg ms t = (OutOfFuel, 4 * fuel + t, [])) /\
  (forall (o : outcome bool) (t' : nat) (tr : list event),
     duo_pass pg ms t = (o, t', tr) ->
     In (EUi ClickTrust) tr ->
     exists u,
       t <= u /\
       is_visible pg u TryAgainBtn = false /\
       is_visible pg (S u) TrustBtn = true /\
       tr = [EUi ClickTrust]).
Proof.
  split; [|split].
  - apply duo_pass_both_visible.
  - intros Hboth fuel. by apply duo_wait_stuck_from.
  - intros o t' tr Hpass Hclick. by eapply duo_pass_break.
Qed.

(** ** More on fetch *)

Lemma select_Return (wanted : list string) (candidate_list ret_list : list json) :
  select wanted candidate_list = Return ret_list ->
  Forall has_crn candidate_list /\
  ret_list = List.filter (crn_among wanted) candidate_list.
Proof.
  revert ret_list. induction candidate_list as [|candidate rest IH];
    simpl; intros ret_list Hsel.
  - inversion Hsel. by split.
  - unfold crn_among at 1.
    destruct (getitem candidate "courseReferenceNumber") as [e|crn] eqn:Hcrn;
      simpl in Hsel; [done|].
    destruct (select wanted rest) as [e|kept]; simpl in Hsel; [done|].
    destruct (IH kept eq_refl) as [Hwf ->]. split.
    + constructor; [by exists crn | done].
    + inversion Hsel. by destruct (in_strs crn wanted).
Qed.

Lemma select_malformed (wanted : list string) (candidate_list : list json)
    (candidate : json) (e : exn) :
  In candidate candidate_list ->
  getitem candidate "courseReferenceNumber" = Raise e ->
  exists e', select wanted candidate_list = Raise e'.
Proof.
  intros Hin Hbad. destruct (select wanted candidate_list) as [e'|ret_list] eqn:Hsel;
    [by exists e'|].
  destruct (select_Return _ _ _ Hsel) as [Hwf _].
  rewrite List.Forall_forall in Hwf. destruct (Hwf candidate Hin) as [crn Hcrn].
  congruence.
Qed.

(** With [course_ids] unset, a body with [success: true] makes [fetch]
    return its [data] exactly as it was parsed, whatever [data] is. *)
Theorem fetch_unfiltered_returns_data (get : http) (self : SnowCat)
    (abb : string) (num : scalar) (response data : json) :
  let written := <["txt_courseNumber" := num]>
                   (<["txt_subject" := SStr abb]> (params self)) in
  get written (headers self) = Return response ->
  getitem response "data" = Return data ->
  getitem response "success" = Return (JBool true) ->
  (fetch get self abb num None).2 = Return data.
Proof.
  intros written Hget Hdata Hsuccess.
  rewrite (fetch_result get self abb num None response Hget).
  unfold fetch_try. rewrite Hdata.
  destruct response; try discriminate. cbn [contains].
  simpl in Hsuccess. destruct (lookup_field "success" fields) eqn:Hfield; [|done].
  by rewrite bool_decide_eq_true_2 by by eexists.
Qed.

(** A filtered [fetch] that returns went through the comprehension. *)
Lemma fetch_Return_select (get : http) (self : SnowCat)
    (abb : string) (num : scalar) (wanted : ids) (ret : json) :
  let written := <["txt_courseNumber" := num]>
                   (<["txt_subject" := SStr abb]> (params self)) in
  (fetch get self abb num (Some wanted)).2 = Return ret ->
  exists response data candidates ret_list,
    get written (headers self) = Return response /\
    getitem response "data" = Return data /\
    iterate data = Return candidates /\
    select (normalize wanted) candidates = Return ret_list /\
    ret = JArr ret_list.
Proof.
  intros written Hret.
  destruct (get written (headers self)) as [e|response] eqn:Hget.
  { unfold fetch in Hret. simpl in Hret. fold written in Hret.
    by rewrite Hget in Hret. }
  rewrite (fetch_result get self abb num _ response Hget) in Hret.
  unfold fetch_try in Hret.
  destruct (getitem response "data") as [e|data] eqn:Hdata.
  { simpl in Hret. by destruct (getitem response "success"). }
  cbn [snd] in Hret.
  destruct (iterate data) as [e|candidates] eqn:Hiter.
  { simpl in Hret. by destruct (getitem response "success"). }
  simpl in Hret.
  destruct (select (normalize wanted) candidates) as [e|ret_list] eqn:Hsel.
  { simpl in Hret. by destruct (getitem response "success"). }
  simpl in Hret. inversion Hret; subst ret.
  by exists response, data, candidates, ret_list.
Qed.

(** What a filtered [fetch] returns, when it returns: the body had a
    [data] whose entries all carry a reference number, and the result is
    those entries, in their order, whose reference number is a JSON string
    equal to [str] of one of the ids; nothing else is ever returned. *)
Theorem fetch_filtered_result (get : http) (self : SnowCat)
    (abb : string) (num : scalar) (wanted : ids) (ret : json) :
  let written := <["txt_courseNumber" := num]>
                   (<["txt_subject" := SStr abb]> (params self)) in
  (fetch get self abb num (Some wanted)).2 = Return ret ->
  exists response data candidates,
    get written (headers self) = Return response /\
    getitem response "data" = Return data /\
    iterate data = Return candidates /\
    Forall has_crn candidates /\
    ret = JArr (List.filter (crn_among (normalize wanted)) candidates) /\
    forall candidate,
      In candidate (List.filter (crn_among (normalize wanted)) candidates) ->
      exists s x,
        getitem candidate "courseReferenceNumber" = Return (JStr s) /\
        In x (members wanted) /\ str x = s.
Proof.
  intros written Hret.
  destruct (fetch_Return_select get self abb num wanted ret Hret)
    as (response & data & candidates & ret_list & Hget & Hdata & Hiter & Hsel & ->).
  destruct (select_Return _ _ _ Hsel) as [Hwf ->].
  exists response, data, candidates. repeat (split; [done|]).
  intros candidate Hin. apply filter_In in Hin as [_ Hamong].
  unfold crn_among in Hamong.
  destruct (getitem candidate "courseReferenceNumber") as [e|crn]; [done|].
  apply in_strs_spec in Hamong as (s & -> & Hs).
  rewrite normalize_members, in_map_iff in Hs. destruct Hs as (x & Hx & Hin).
  by exists s, x.
Qed.

(** One entry of [data] without a reference number makes a filtered
    [fetch] raise, whether or not that entry was asked for. *)
Theorem fetch_malformed_candidate_raises (get : http) (self : SnowCat)
    (abb : string) (num : scalar) (wanted : ids) (response : json)
    (candidate_list : list json) (candidate : json) (e : exn) :
  let written := <["txt_courseNumber" := num]>
                   (<["txt_subject" := SStr abb]> (params self)) in
  get written (headers self) = Return response ->
  getitem response "data" = Return (JArr candidate_list) ->
  In candidate candidate_list ->
  getitem candidate "courseReferenceNumber" = Raise e ->
  exists e', (fetch get self abb num (Some wanted)).2 = Raise e'.
Proof.
  intros written Hget Hdata Hin Hbad.
  rewrite (fetch_result get self abb num _ response Hget).
  unfold fetch_try. rewrite Hdata. simpl.
  destruct (select_malformed (normalize wanted) _ _ _ Hin Hbad) as [e' ->]. simpl.
  destruct (getitem response "success"); by eexists.
Qed.

(** An empty list, tuple or set of ids selects nothing: if the filtered
    [fetch] returns, it returns the empty list. *)
Theorem fetch_no_ids_returns_nothing (get : http) (self : SnowCat)
    (abb : string) (num : scalar) (wanted : ids) (ret : json) :
  members wanted = [] ->
  (fetch get self abb num (Some wanted)).2 = Return ret ->
  ret = JArr [].
Proof.
  intros Hempty Hret.
  destruct (fetch_Return_select get self abb num wanted ret Hret)
    as (response & data & candidates & ret_list & _ & _ & _ & Hsel & ->).
  destruct (select_Return _ _ _ Hsel) as [_ ->].
  rewrite normalize_members, Hempty. simpl. f_equal.
  clear. induction candidates as [|candidate rest IH]; simpl; [done|].
  unfold crn_among at 1.
  by destruct (getitem candidate "courseReferenceNumber").
Qed.

(** The object remembers the latest target only: after two fetches its
    query params are those that the second fetch alone would have left. *)
Theorem fetch_overwrites_target (get1 get2 : http) (self : SnowCat)
    (abb1 abb2 : string) (num1 num2 : scalar) (cids1 cids2 : option ids) :
  params (fetch get2 (fetch get1 self abb1 num1 cids1).1.1 abb2 num2 cids2).1.1
  = params (fetch get2 self abb2 num2 cids2).1.1.
Proof.
  rewrite !fetch_self. simpl. apply map_eq. intros k.
  destruct (decide (k = "txt_courseNumber")) as [->|Hnum];
    [by rewrite !lookup_insert_eq|].
  rewrite !(lookup_insert_ne _ "txt_courseNumber") by done.
  destruct (decide (k = "txt_subject")) as [->|Hsub];
    [by rewrite !lookup_insert_eq|].
  rewrite !(lookup_insert_ne _ "txt_subject") by done.
  by rewrite !lookup_insert_ne by done.
Qed.

(** ** The default trigger *)

Lemma any_seat_countable (alarm : bool) (candidate_list : list json) :
  Forall countable_seats candidate_list ->
  any_seat alarm candidate_list = Return (alarm || existsb has_seat candidate_list).
Proof.
  intros Hwf. revert alarm.
  induction Hwf as [|candidate rest (crn & seats & Hcrn & Hhash & Hseats) _ IH];
    intros alarm; simpl.
  - by rewrite orb_false_r.
  - unfold has_seat at 1. rewrite Hseats, Hcrn. simpl. rewrite Hhash. simpl.
    rewrite IH. by destruct (0 <? seats)%Z, alarm.
Qed.

Lemma any_seat_malformed (alarm : bool) (candidate_list : list json)
    (candidate : json) (e : exn) :
  In candidate candidate_list ->
  getitem candidate "seatsAvailable" = Raise e ->
  exists e', any_seat alarm candidate_list = Raise e'.
Proof.
  revert alarm. induction candidate_list as [|c rest IH]; intros alarm Hin Hbad;
    [done|]. simpl.
  destruct (getitem c "seatsAvailable") as [e1|seats] eqn:Hseats; simpl;
    [by eexists|].
  destruct (getitem c "courseReferenceNumber") as [e1|crn]; simpl; [by eexists|].
  destruct (hashable crn) as [e1|[]]; simpl; [by eexists|].
  destruct (gt_zero seats) as [e1|open]; simpl; [by eexists|].
  destruct Hin as [->|Hin]; [congruence|]. by apply IH.
Qed.

(** On sections whose seats can be counted the default trigger returns;
    it warns and beeps five times exactly when some section has a free
    seat, and otherwise writes one debug line and stays silent. *)
Theorem default_trigger_alarm_iff (candidate_list : list json) :
  Forall countable_seats candidate_list ->
  default_trigger (JArr candidate_list)
  = if existsb has_seat candidate_list
    then (ELog WARNING "SnowCat" "Course available with spots" :: beeps, Return tt)
    else ([ELog DEBUG "SnowCat" "Course available with spots"], Return tt).
Proof.
  intros Hwf. unfold default_trigger. simpl.
  rewrite (any_seat_countable false _ Hwf). simpl.
  by destruct (existsb has_seat candidate_list).
Qed.

(** One section without [seatsAvailable] makes the default trigger raise
    before it has logged or beeped anything, free seats elsewhere or not. *)
Theorem default_trigger_malformed_raises (candidate_list : list json)
    (candidate : json) (e : exn) :
  In candidate candidate_list ->
  getitem candidate "seatsAvailable" = Raise e ->
  exists e', default_trigger (JArr candidate_list) = ([], Raise e').
Proof.
  intros Hin Hbad. unfold default_trigger. simpl.
  destruct (any_seat_malformed false _ _ _ Hin Hbad) as [e' ->]. by exists e'.
Qed.

(** ** More on the watch loop *)

Lemma quiet_awake {A} (m : script A) (t : nat) : quiet m -> awake (m t).2.
Proof.
  intros Hm. eapply Forall_impl; [apply (Hm t)|]. by intros e [a ->].
Qed.

Lemma fetch_trace_awake (get : http) self abb num cids :
  awake (fetch get self abb num cids).1.2.
Proof.
  unfold fetch, fetch_try. simpl.
  destruct (get _ _) as [e|response]; [by repeat constructor|].
  destruct (getitem response "data") as [e|candidate_list];
    [by repeat constructor|].
  destruct (was_failed self), cids as [wanted|]; simpl.
  - destruct (_ ≫= _); by repeat constructor.
  - destruct (contains "success" response) as [e|[]]; simpl;
      try destruct (getitem response "success"); by repeat constructor.
  - destruct (_ ≫= _); by repeat constructor.
  - destruct (contains "success" response) as [e|[]]; simpl;
      try destruct (getitem response "success"); by repeat constructor.
Qed.

Lemma refresh_trace_awake fuel pg self field num ms :
  awake (refresh fuel pg self field num ms).2.
Proof.
  unfold refresh.
  pose proof (quiet_awake _ 0 (quiet_login_and_search fuel pg field num ms)) as Hrun.
  destruct (login_and_search _ _ _ _ _ 0) as [[[[e|req]|] t] tr]; simpl in *;
    try by constructor.
  assert (quiet (act pg CloseContext;; act pg CloseBrowser)) as Hclose
    by (apply quiet_bind; auto with script).
  apply (quiet_awake _ t) in Hclose.
  destruct ((act pg CloseContext;; act pg CloseBrowser) t)
    as [[[[e|[]]|] t'] tr']; simpl in *;
    constructor; try done; repeat (apply Forall_app; split); try done.
  by repeat constructor.
Qed.

Lemma refresh_params_frame fuel pg self field num ms (k : string) :
  k <> "uniqueSessionId" ->
  params (refresh fuel pg self field num ms).1.1 !! k = params self !! k.
Proof.
  intros Hk.
  destruct (refresh_self fuel pg self field num ms) as [->|(req & t & tr & _ & ->)];
    [done|].
  destruct req as [req|]; [|done]. simpl.
  destruct (parse_qs _ !! _) as [[|first rest]|]; simpl; try done.
  by rewrite lookup_insert_ne.
Qed.

(** An iteration returns from [watch] only on a failed fetch that finds
    the failure bit set. *)
Lemma watch_step_return (s s' : loop_state) (tr : list event) :
  watch_step s = (Stop (Finished (Return tt)) s', tr) ->
  (exists e, (fetch_at s).2 = Raise e) /\
  was_failed (cat s) = true /\ was_failed (cat s') = true.
Proof.
  intros Hstep. destruct (fetch_at s).2 as [e|v] eqn:Hfetch.
  - destruct (was_failed (cat s)) eqn:Hbit.
    + destruct (watch_step_abort s e Hfetch Hbit) as (s1 & tr1 & Hstep1 & Hbit1 & _).
      rewrite Hstep in Hstep1. inversion Hstep1; subst. eauto.
    + exfalso. eapply recovers_not_fatal; [|exact Hstep].
      by eapply failure_without_bit_recovers.
  - destruct (watch_step_success s v Hfetch) as (s1 & tr1 & [Hc|[e Hc]] & _);
      rewrite Hstep in Hc; done.
Qed.

(** An exception of the trigger is not caught: it ends [watch], with the
    failure bit clear, no refresh and no sleep after the trigger. *)
Theorem trigger_error_leaves_watch (s : loop_state) (ret : json)
    (tr_trigger : list event) (e : exn) (fuel : nat) :
  (fetch_at s).2 = Return ret ->
  default default_trigger on_trigger ret = (tr_trigger, Raise e) ->
  exists s',
    watch (S fuel) s
    = (Finished (Raise e), s', ((fetch_at s).1.2 ++ ETrigger ret :: tr_trigger)%list) /\
    was_failed (cat s') = false /\
    refreshes s' = refreshes s.
Proof.
  intros Hfetch Htrigger. cbn [watch]. unfold watch_step.
  destruct (fetch_at s) as [[self tr] r]; simpl in *. subst r.
  rewrite Htrigger. by eexists.
Qed.

(** An exception of [refresh] is not caught either: after a first failed
    fetch it ends [watch], the failure bit stays set, and no further GET
    is sent. *)
Theorem refresh_error_leaves_watch (s : loop_state) (e0 e : exn) (fuel : nat) :
  (fetch_at s).2 = Raise e0 ->
  was_failed (cat s) = false ->
  (refresh_at s (set_was_failed true (fetch_at s).1.1)).1.2 = Finished (Raise e) ->
  exists s' tr,
    watch (S fuel) s = (Finished (Raise e), s', tr) /\
    was_failed (cat s') = true /\
    gets s' = S (gets s) /\
    List.filter is_trigger tr = [].
Proof.
  intros Hfetch Hbit Hrefresh.
  destruct (watch_step_recover s e0 Hfetch Hbit)
    as (self' & o & tr & Hrun & Hstep & Hkeep & _ & Ht).
  rewrite Hrun in Hrefresh. simpl in Hrefresh. subst o.
  cbn [watch]. rewrite Hstep. by eexists _, _.
Qed.

(** [watch] returns in one way only: some iteration found the failure
    bit set and its fetch failed.  The object it leaves has the bit set. *)
Theorem watch_returns_only_by_abort (fuel : nat) (s0 s' : loop_state)
    (tr : list event) :
  watch fuel s0 = (Finished (Return tt), s', tr) ->
  exists n s pre e,
    n < fuel /\
    head_of_iteration n s0 = Some (s, pre) /\
    was_failed (cat s) = true /\
    (fetch_at s).2 = Raise e /\
    was_failed (cat s') = true.
Proof.
  revert s0 tr. induction fuel as [|fuel IH]; intros s0 tr Hrun; [done|].
  cbn [watch] in Hrun.
  destruct (watch_step s0) as [[s1|o s1] tr1] eqn:Hstep.
  - destruct (watch fuel s1) as [[o s2] tr2] eqn:Hrest.
    inversion Hrun; subst.
    destruct (IH s1 tr2 Hrest) as (n & s & pre & e & Hn & Hhead & Hbit & Hfail & Hbit').
    exists (S n), s, (tr1 ++ pre)%list, e. split; [lia|].
    split; [|done]. simpl. by rewrite Hstep, Hhead.
  - inversion Hrun; subst.
    destruct (watch_step_return s0 s' tr Hstep) as ([e Hfail] & Hbit & Hbit').
    exists 0, s0, [], e. split; [lia|]. done.
Qed.




(** The loop sleeps for [interval] after a trigger that returned, as the
    last thing of the iteration, and nowhere else: an iteration that
    refreshes goes back to fetching without any sleep. *)
Theorem watch_sleeps_only_after_trigger (s s' : loop_state) (tr : list event) :
  watch_step s = (Continue s', tr) ->
  match (fetch_at s).2 with
  | Return _ => last tr = Some (ESleep (interval * 1000))
  | Raise _ => awake tr
  end.
Proof.
  intros Hstep. destruct (fetch_at s).2 as [e|ret] eqn:Hfetch.
  - destruct (was_failed (cat s)) eqn:Hbit.
    + destruct (watch_step_abort s e Hfetch Hbit) as (s1 & tr1 & Hstep1 & _).
      rewrite Hstep in Hstep1. done.
    + destruct (watch_step_recover s e Hfetch Hbit)
        as (self' & o & tr' & Hrun & Hstep' & _).
      rewrite Hstep in Hstep'. inversion Hstep'; subst tr.
      apply Forall_app. split; [apply fetch_trace_awake|].
      constructor; [done|].
      pose proof (refresh_trace_awake patience (browser (refreshes s))
                    (set_was_failed true (fetch_at s).1.1)
                    course_field course_num timeout) as Hawake.
      unfold refresh_at in Hrun. by rewrite Hrun in Hawake.
  - unfold watch_step in Hstep.
    destruct (fetch_at s) as [[self tr0] r]; simpl in *. subst r.
    destruct (default default_trigger on_trigger ret) as [tr' [e|[]]];
      [done|].
    destruct (sleep interval) as [e|[]]; inversion Hstep; subst.
    rewrite app_comm_cons, app_assoc. apply last_snoc.
Qed.

Lemma watch_step_params_frame (s : loop_state) (k : string) :
  k <> "uniqueSessionId" ->
  params (cat (state_of (watch_step s).1)) !! k
  = (<["txt_courseNumber" := course_num]>
       (<["txt_subject" := SStr course_abb]> (params (cat s)))) !! k.
Proof.
  intros Hk. unfold watch_step.
  pose proof (fetch_self (portal (gets s)) (cat s) course_abb course_num course_ids)
    as Hself.
  fold (fetch_at s) in Hself.
  destruct (fetch_at s) as [[self tr] [e|ret]]; simpl in Hself; subst self.
  - destruct (was_failed _); [done|].
    pose proof (refresh_params_frame patience (browser (refreshes s))
                  (set_was_failed true
                     (set_params (<["txt_courseNumber" := course_num]>
                                    (<["txt_subject" := SStr course_abb]>
                                       (params (cat s)))) (cat s)))
                  course_field course_num timeout k Hk) as Hframe.
    unfold refresh_at. revert Hframe.
    destruct (refresh _ _ _ _ _ _) as [[self' o] tr']. simpl. intros Hframe.
    by destruct o as [[e'|[]]|].
  - destruct (default default_trigger on_trigger ret) as [tr' [e|[]]]; [done|].
    by destruct (sleep interval) as [e|[]].
Qed.

(** Through any number of iterations the loop writes three query params
    and no other: every other key keeps the value it had at the start;
    and from the first iteration on, [txt_subject] and [txt_courseNumber]
    hold the target of the watch. *)
Theorem watch_params_frame (n : nat) (s0 s : loop_state) (pre : list event) :
  head_of_iteration n s0 = Some (s, pre) ->
  (forall k, ~ In k written_keys -> params (cat s) !! k = params (cat s0) !! k) /\
  (0 < n ->
   params (cat s) !! "txt_subject" = Some (SStr course_abb) /\
   params (cat s) !! "txt_courseNumber" = Some course_num).
Proof.
  revert s0 pre. induction n as [|n IH]; simpl; intros s0 pre Hhead.
  - inversion Hhead; subst. split; [done|lia].
  - pose proof (watch_step_params_frame s0) as Hframe.
    destruct (watch_step s0) as [[s1|o s1] tr1]; [|done]. simpl in Hframe.
    destruct (head_of_iteration n s1) as [[s2 tr2]|] eqn:Hrest; [|done].
    inversion Hhead; subst. destruct (IH s1 tr2 Hrest) as [Hother Htarget].
    split.
    + intros k Hk. rewrite (Hother k Hk).
      rewrite Hframe by (intros ->; apply Hk; simpl; tauto).
      rewrite !lookup_insert_ne; [done| |]; intros <-; apply Hk; simpl; tauto.
    + intros _. destruct n as [|n].
      * inversion Hrest; subst. rewrite !Hframe by done.
        rewrite lookup_insert_ne by done. by rewrite !lookup_insert_eq.
      * apply Htarget. lia.
Qed.

(** ** More on the browser script *)

Lemma plays_ret {A} (P : ui -> Prop) (a : A) : plays P (mret a).
Proof. intros t. constructor. Qed.

Lemma plays_bind {A B} (P : ui -> Prop) (m : script A) (k : A -> script B) :
  plays P m -> (forall a, plays P (k a)) -> plays P (m ≫= k).
Proof.
  intros Hm Hk t. unfold mbind, script_bind. specialize (Hm t).
  destruct (m t) as [[[[e|a]|] t'] tr]; simpl in *; try done.
  specialize (Hk a t'). destruct (k a t') as [[o t''] tr']; simpl in *.
  by apply Forall_app.
Qed.

Lemma plays_out_of_fuel {A} (P : ui -> Prop) : plays P (@out_of_fuel A).
Proof. intros t. constructor. Qed.

Lemma plays_visible P pg l : plays P (visible pg l).
Proof. intros t. constructor. Qed.

Lemma plays_count P pg : plays P (count pg).
Proof. intros t. constructor. Qed.

Lemma plays_act (P : ui -> Prop) pg a : P a -> plays P (act pg a).
Proof. intros Ha t. repeat constructor. by exists a. Qed.

Ltac plays_steps :=
  repeat first
    [ apply plays_bind; [|intros ?]
    | apply plays_ret | apply plays_out_of_fuel
    | apply plays_visible | apply plays_count
    | apply plays_act
    | match goal with |- plays _ (if ?b then _ else _) => destruct b end
    | match goal with |- plays _ (and_ _ _) => unfold and_ end
    | match goal with |- plays _ (not_ _) => unfold not_ end ].

Lemma plays_duo_wait (P : ui -> Prop) fuel pg ms :
  P ClickTryAgain -> P WaitForLoad -> P ClickTrust ->
  P (WaitForTimeout (Z.max 10 (ms / 10))) ->
  plays P (duo_wait fuel pg ms).
Proof.
  intros H1 H2 H3 H4. induction fuel as [|fuel IH]; simpl; [apply plays_out_of_fuel|].
  apply plays_bind; [unfold duo_pass; plays_steps; done|].
  intros []; [apply plays_ret | exact IH].
Qed.

Lemma plays_pick_subject (P : ui -> Prop) fuel pg ms :
  P ClickFirstResult -> P (WaitForTimeout (Z.max 10 (ms / 100))) ->
  plays P (pick_subject fuel pg ms).
Proof.
  intros H1 H2. induction fuel as [|fuel IH]; simpl; [apply plays_out_of_fuel|].
  apply plays_bind; [apply plays_count|]. intros n.
  destruct (Nat.eqb n 1); [by apply plays_act|].
  apply plays_bind; [by apply plays_act | by intros _].
Qed.

Lemma login_and_search_never_closes fuel pg field num ms :
  plays (fun a => ~ closes a) (login_and_search fuel pg field num ms).
Proof.
  unfold login_and_search.
  repeat first
    [ apply plays_bind; [|intros ?]
    | apply plays_ret
    | apply plays_duo_wait
    | apply plays_pick_subject
    | apply plays_act ];
    by intros [|].
Qed.

Lemma plays_not_In {A} (P : ui -> Prop) (m : script A) (t : nat) (a : ui) :
  plays P m -> ~ P a -> ~ In (EUi a) (m t).2.
Proof.
  intros Hm Ha Hin. specialize (Hm t). rewrite List.Forall_forall in Hm.
  destruct (Hm _ Hin) as (a' & Heq & HP). inversion Heq; subst. done.
Qed.

(** The object that a returning [refresh] leaves is the old one put
    through the two updates with the intercepted request. *)
Lemma refresh_returns_updated fuel pg self self' field num ms tr :
  refresh fuel pg self field num ms = (self', Finished (Return tt), tr) ->
  self' = _update_params_from_request
            (_update_headers_from_request self (req_info_value pg))
            (req_info_value pg).
Proof.
  intros Hrun. unfold refresh in Hrun.
  destruct (login_and_search _ _ _ _ _ 0) as [[[[e|req]|] t] tr'] eqn:Hscript;
    [done| |done].
  apply login_and_search_yields in Hscript. subst req.
  destruct ((act pg CloseContext;; act pg CloseBrowser) t)
    as [[[[e|[]]|] t'] tr'']; by inversion Hrun.
Qed.

(** A [refresh] whose login script raises leaves the object as it was
    and raises the same exception; on that path it plays neither
    [context.close()] nor [browser.close()]. *)
Theorem refresh_error_keeps_credentials (fuel : nat) (pg : page) (self : SnowCat)
    (field : string) (num : scalar) (ms : Z) (e : exn) :
  (login_and_search fuel pg field num ms 0).1.1 = Finished (Raise e) ->
  (refresh fuel pg self field num ms).1 = (self, Finished (Raise e)) /\
  ~ In (EUi CloseContext) (refresh fuel pg self field num ms).2 /\
  ~ In (EUi CloseBrowser) (refresh fuel pg self field num ms).2.
Proof.
  intros Hscript. unfold refresh.
  pose proof (plays_not_In _ _ 0 CloseContext
                (login_and_search_never_closes fuel pg field num ms)) as Hctx.
  pose proof (plays_not_In _ _ 0 CloseBrowser
                (login_and_search_never_closes fuel pg field num ms)) as Hbrowser.
  destruct (login_and_search _ _ _ _ _ 0) as [[o t] tr]. simpl in *. subst o.
  simpl. split; [done|].
  split; (intros [Habs|Hin]; [done|]).
  - apply Hctx; [|done]. intros Hno. apply Hno. by left.
  - apply Hbrowser; [|done]. intros Hno. apply Hno. by right.
Qed.

(** If [context.close()] fails after the request was intercepted, the
    new credentials are stored all the same, [browser.close()] is not
    played, and the exception leaves [refresh]. *)
Theorem refresh_close_error_keeps_update (fuel : nat) (pg : page) (self : SnowCat)
    (field : string) (num : scalar) (ms : Z) (t : nat) (tr : list event)
    (req : option request) (e : exn) :
  login_and_search fuel pg field num ms 0 = (Finished (Return req), t, tr) ->
  fails pg t CloseContext = Some e ->
  (refresh fuel pg self field num ms).1
  = (_update_params_from_request (_update_headers_from_request self req) req,
     Finished (Raise e)) /\
  ~ In (EUi CloseBrowser) (refresh fuel pg self field num ms).2.
Proof.
  intros Hscript Hfail.
  pose proof (plays_not_In _ _ 0 CloseBrowser
                (login_and_search_never_closes fuel pg field num ms)) as Hbrowser.
  unfold refresh. rewrite Hscript in Hbrowser |- *.
  unfold mbind, script_bind, act. rewrite Hfail. simpl. split; [done|].
  intros [Habs|Hin]; [done|]. apply in_app_or in Hin as [Hin|[Habs|[]]]; [|done].
  apply Hbrowser; [|done]. intros Hno. apply Hno. by right.
Qed.

(** The GET that follows a returning [refresh] is sent with the
    intercepted request's headers and, when its URL gave a session id,
    with that id next to the target of the fetch. *)
Theorem fetch_after_refresh (fuel : nat) (pg : page) (self self' : SnowCat)
    (field : string) (num : scalar) (ms : Z) (tr : list event) (req : request)
    (first : string) (rest : list string)
    (get : http) (abb : string) (n : scalar) (cids : option ids) :
  req_info_value pg = Some req ->
  refresh fuel pg self field num ms = (self', Finished (Return tt), tr) ->
  parse_qs (urlparse_query (url req)) !! "uniqueSessionId" = Some (first :: rest) ->
  exists p,
    hd_error (fetch get self' abb n cids).1.2 = Some (EGet p (all_headers req)) /\
    p !! "uniqueSessionId" = Some (SStr first) /\
    p !! "txt_subject" = Some (SStr abb) /\
    p !! "txt_courseNumber" = Some n.
Proof.
  intros Hreq Hrun Hqs. apply refresh_returns_updated in Hrun.
  rewrite Hreq in Hrun. simpl in Hrun. rewrite Hqs in Hrun. subst self'.
  eexists. split.
  - unfold fetch. simpl. destruct (get _ _) as [e|response]; [done|].
    by destruct (fetch_try _ _ _) as [log [e|ret]].
  - rewrite !lookup_insert_ne by done. rewrite !lookup_insert_eq.
    rewrite lookup_insert_ne by done. by rewrite lookup_insert_eq.
Qed.

(** ** More on the two-factor loop and the subject search *)


Lemma duo_pass_pending (pg : page) (ms : Z) (t : nat) :
  (forall u, is_visible pg u TryAgainBtn = false) ->
  is_visible pg (2 + t) TrustBtn = false ->
  fails pg (3 + t) (WaitForTimeout (Z.max 10 (ms / 10))) = None ->
  duo_pass pg ms t = (Finished (Return false), 4 + t, [idle_wait ms]).
Proof.
  intros Hretry Htrust Hfails. simpl in Htrust, Hfails.
  unfold duo_pass, and_, not_, visible, act, mbind, script_bind, mret, script_ret,
    idle_wait.
  rewrite !Hretry. simpl. rewrite Htrust. simpl. by rewrite Hfails.
Qed.

Lemma duo_pass_trusted (pg : page) (ms : Z) (t : nat) :
  (forall u, is_visible pg u TryAgainBtn = false) ->
  is_visible pg (2 + t) TrustBtn = true ->
  is_visible pg (4 + t) TrustBtn = true ->
  fails pg (5 + t) ClickTrust = None ->
  duo_pass pg ms t = (Finished (Return true), 6 + t, [EUi ClickTrust]).
Proof.
  intros Hretry Htrust2 Htrust4 Hfails. simpl in Htrust2, Htrust4, Hfails.
  unfold duo_pass, and_, not_, visible, act, mbind, script_bind, mret, script_ret.
  rewrite !Hretry. simpl. rewrite Htrust2. simpl. rewrite Hretry. simpl.
  rewrite Htrust4. simpl. by rewrite Hfails.
Qed.

Lemma duo_wait_continue (fuel : nat) (pg : page) (ms : Z) (t t1 : nat)
    (tr1 : list event) :
  duo_pass pg ms t = (Finished (Return false), t1, tr1) ->
  duo_wait (S fuel) pg ms t
  = ((duo_wait fuel pg ms t1).1.1, (duo_wait fuel pg ms t1).1.2,
     (tr1 ++ (duo_wait fuel pg ms t1).2)%list).
Proof.
  intros Hpass. cbn [duo_wait]. unfold mbind at 1, script_bind. rewrite Hpass.
  by destruct (duo_wait fuel pg ms t1) as [[o t2] tr2].
Qed.

Lemma duo_wait_break (fuel : nat) (pg : page) (ms : Z) (t t1 : nat)
    (tr1 : list event) :
  duo_pass pg ms t = (Finished (Return true), t1, tr1) ->
  duo_wait (S fuel) pg ms t = (Finished (Return tt), t1, tr1).
Proof.
  intros Hpass. cbn [duo_wait]. unfold mbind at 1, script_bind. rewrite Hpass.
  simpl. by rewrite app_nil_r.
Qed.

(** The approval arrives after [k] idle passes: with the retry button
    never showing, the trust button hidden when each of the first [k]
    passes looks at it and showing when the next pass does, the loop ends
    after exactly [k] idle waits and one trust click, retry never clicked,
    provided it is followed for more than [k] passes. *)
Theorem duo_wait_approved_after (pg : page) (ms : Z) (k extra : nat) (t : nat) :
  (forall u, is_visible pg u TryAgainBtn = false) ->
  (forall i, i < k -> is_visible pg (4 * i + 2 + t) TrustBtn = false) ->
  is_visible pg (4 * k + 2 + t) TrustBtn = true ->
  is_visible pg (4 * k + 4 + t) TrustBtn = true ->
  (forall u a, fails pg u a = None) ->
  duo_wait (S k + extra) pg ms t
  = (Finished (Return tt), 4 * k + 6 + t,
     (replicate k (idle_wait ms) ++ [EUi ClickTrust])%list).
Proof.
  intros Hretry. revert t.
  induction k as [|k IH]; intros t Hhidden Hshow2 Hshow4 Hfails.
  - change (1 + extra) with (S extra).
    by rewrite (duo_wait_break extra pg ms t _ _
                  (duo_pass_trusted pg ms t Hretry Hshow2 Hshow4 (Hfails _ _))).
  - change (S (S k) + extra) with (S (S k + extra)).
    rewrite (duo_wait_continue _ pg ms t _ _
               (duo_pass_pending pg ms t Hretry (Hhidden 0 (Nat.lt_0_succ k)) (Hfails _ _))).
    rewrite (IH (4 + t)).
    + cbn [fst snd replicate app]. f_equal. f_equal. lia.
    + intros i Hi. replace (4 * i + 2 + (4 + t)) with (4 * S i + 2 + t) by lia.
      apply Hhidden. lia.
    + by replace (4 * k + 2 + (4 + t)) with (4 * S k + 2 + t) by lia.
    + by replace (4 * k + 4 + (4 + t)) with (4 * S k + 4 + t) by lia.
    + done.
Qed.

Lemma duo_pass_ends (pg : page) (ms : Z) (t t' : nat) (done_ : bool)
    (tr : list event) :
  duo_pass pg ms t = (Finished (Return done_), t', tr) ->
  if done_ then tr = [EUi ClickTrust] else ~ In (EUi ClickTrust) tr.
Proof using.
  unfold duo_pass, and_, not_, visible, act, mbind, script_bind, mret, script_ret.
  repeat match goal with
         | |- context [is_visible ?p ?u ?l] =>
             destruct (is_visible p u l); simpl
         | |- context [fails ?p ?u ?a] => destruct (fails p u a); simpl
         end;
    intros Heq; inversion Heq; subst; try done;
    simpl; intros Hin;
    repeat (destruct Hin as [Hin|Hin]; [discriminate Hin|]); exact Hin.
Qed.

(** The two-factor loop is left through the trust click and nothing
    else: whenever it returns, its trace ends with that click, the only
    one, made after the retry button was seen hidden and the trust button
    showing. *)
Theorem duo_wait_exit_by_trust (fuel : nat) (pg : page) (ms : Z) (t t' : nat)
    (tr : list event) :
  duo_wait fuel pg ms t = (Finished (Return tt), t', tr) ->
  exists before u,
    tr = (before ++ [EUi ClickTrust])%list /\
    ~ In (EUi ClickTrust) before /\
    t <= u /\
    is_visible pg u TryAgainBtn = false /\
    is_visible pg (S u) TrustBtn = true.
Proof using.
  revert t tr. induction fuel as [|fuel IH]; intros t tr Hrun; [done|].
  cbn [duo_wait] in Hrun. unfold mbind at 1, script_bind in Hrun.
  destruct (duo_pass pg ms t) as [[[[e|done_]|] t1] tr1] eqn:Hpass; try done.
  pose proof (duo_pass_ends pg ms t t1 done_ tr1 Hpass) as Hends.
  destruct done_.
  - subst tr1.
    destruct (duo_pass_break pg ms t t1 _ _ Hpass (or_introl eq_refl))
      as (u & Hu & Hhidden & Hshow & _).
    inversion Hrun; subst. exists [], u. repeat split; try done. by intros [].
  - destruct (duo_wait fuel pg ms t1) as [[o t2] tr2] eqn:Hrest.
    inversion Hrun; subst.
    destruct (IH t1 tr2 Hrest) as (before & u & -> & Hnot & Hu & Hhidden & Hshow).
    exists (tr1 ++ before)%list, u. rewrite app_assoc. repeat split; try done.
    + intros Hin. apply in_app_or in Hin as [Hin|Hin]; [by apply Hends | by apply Hnot].
    + assert (t <= t1); [|lia]. clear -Hpass.
      revert Hpass.
      unfold duo_pass, and_, not_, visible, act, mbind, script_bind, mret,
        script_ret.
      repeat match goal with
             | |- context [is_visible ?p ?v ?l] =>
                 destruct (is_visible p v l); simpl
             | |- context [fails ?p ?v ?a] => destruct (fails p v a); simpl
             end;
        intros Heq; inversion Heq; lia.
Qed.

(** The subject search clicks a suggestion only after a poll that counted
    exactly one: when it returns, there were [k] polls with another count,
    each followed by a wait of a hundredth of the timeout (ten
    milliseconds at least), then a poll that counted one, then the
    click. *)
Theorem pick_subject_returns (fuel : nat) (pg : page) (ms : Z) (t t' : nat)
    (tr : list event) :
  pick_subject fuel pg ms t = (Finished (Return tt), t', tr) ->
  exists k,
    k < fuel /\
    results_count pg (2 * k + t) = 1 /\
    (forall j, j < k -> results_count pg (2 * j + t) <> 1) /\
    tr = (replicate k (poll_wait ms) ++ [EUi ClickFirstResult])%list /\
    t' = 2 * k + 2 + t.
Proof.
  revert t tr. induction fuel as [|fuel IH]; intros t tr Hrun; [done|].
  cbn [pick_subject] in Hrun.
  unfold mbind at 1, script_bind, count in Hrun.
  destruct (Nat.eqb (results_count pg t) 1) eqn:Hone.
  - apply Nat.eqb_eq in Hone. unfold act in Hrun.
    destruct (fails pg (S t) ClickFirstResult); inversion Hrun; subst.
    exists 0. repeat split; try done; try lia.
  - apply Nat.eqb_neq in Hone.
    unfold mbind, script_bind, act in Hrun.
    destruct (fails pg (S t) _); [done|].
    destruct (pick_subject fuel pg ms (S (S t))) as [[o t2] tr2] eqn:Hrest.
    inversion Hrun; subst.
    destruct (IH _ _ Hrest) as (k & Hk & Hcount & Hother & -> & ->).
    exists (S k). split; [lia|].
    split; [by replace (2 * S k + t) with (2 * k + S (S t)) by lia|].
    split; [|split; [done|lia]].
    intros [|j] Hj; [done|].
    replace (2 * S j + t) with (2 * j + S (S t)) by lia. apply Hother. lia.
Qed.

End Program.

(** ** fetch on the sample bodies *)

(** C1 fails as stated: with [course_ids] set, a body whose [success] is
    false makes [fetch] return the filtered list. *)
Lemma fetch_unsuccessful_returns_list :
  getitem Sample.unsuccessful "success" = Return (JBool false) /\
  (fetch (Sample.answers Sample.unsuccessful) init "CS" (SInt 421)
     (Some (IdScalar (SInt 31376)))).2
  = Return (JArr [Sample.section "31376" 2]).
Proof. split; reflexivity. Qed.

(** With [course_ids] unset the test is ["success" in response], which
    holds for a false [success] as well: the whole list comes back. *)
Example fetch_unsuccessful_unfiltered :
  (fetch (Sample.answers Sample.unsuccessful) init "CS" (SInt 421) None).2
  = getitem Sample.unsuccessful "data".
Proof. reflexivity. Qed.

Lemma fetch_unsuccessful_witness :
  (fetch (Sample.answers Sample.no_data) init "CS" (SInt 421) None).2
  = Raise (ValueError (Some (KeyError "data"))) /\
  (fetch (Sample.answers Sample.unsuccessful) init "CS" (SInt 421)
     (Some (IdSet [SStr "31375"; SInt 7]))).2
  = Return (JArr [Sample.section "31375" 0]).
Proof.
  split.
  - apply (fetch_unsuccessful (Sample.answers Sample.no_data) init "CS"
             (SInt 421) None Sample.no_data); reflexivity.
  - destruct (fetch_unsuccessful (Sample.answers Sample.unsuccessful) init "CS"
                (SInt 421) (Some (IdSet [SStr "31375"; SInt 7]))
                Sample.unsuccessful eq_refl eq_refl) as (_ & Hset & _).
    apply (Hset _ _ eq_refl eq_refl).
    repeat constructor; eexists; reflexivity.
Defined.

Lemma fetch_missing_success_unwrapped_witness :
  (fetch (Sample.answers Sample.no_success) init "CS" (SInt 421) None).2
  = Raise (KeyError "success").
Proof.
  apply (fetch_missing_success_unwrapped (Sample.answers Sample.no_success) init
           "CS" (SInt 421) [("data", JArr [])]); reflexivity.
Defined.

(** The same body with [course_ids] set raises nothing at all. *)
Example fetch_missing_success_unnoticed :
  (fetch (Sample.answers Sample.no_success) init "CS" (SInt 421)
     (Some (IdScalar (SInt 31375)))).2
  = Return (JArr []).
Proof. reflexivity. Qed.

(** An empty body with [course_ids] set: [KeyError] again. *)
Example fetch_empty_body_raises_KeyError :
  (fetch (Sample.answers (JObj [])) init "CS" (SInt 421)
     (Some (IdScalar (SInt 31375)))).2
  = Raise (KeyError "success").
Proof. reflexivity. Qed.

(** A body that is not an object: [TypeError]. *)
Example fetch_list_body_raises_TypeError :
  (fetch (Sample.answers (JArr [])) init "CS" (SInt 421) None).2
  = Raise TypeError.
Proof. reflexivity. Qed.

Lemma fetch_ids_form_irrelevant_witness :
  fetch (Sample.answers Sample.successful) init "CS" (SInt 421)
    (Some (IdScalar (SInt 31376)))
  = fetch (Sample.answers Sample.successful) init "CS" (SInt 421)
      (Some (IdSet [SStr "31376"; SInt 31376])).
Proof.
  apply fetch_ids_form_irrelevant. split.
  - intros x [<-|[]]. exists (SStr "31376"). split; [by left | reflexivity].
  - intros y [<-|[<-|[]]]; exists (SInt 31376); (split; [by left | reflexivity]).
Defined.

Example str_of_int : str (SInt 31375) = "31375" /\ str (SInt (-7)) = "-7".
Proof. split; reflexivity. Qed.

Example fetch_filters_by_id :
  (fetch (Sample.answers Sample.successful) init "CS" (SInt 421)
     (Some (IdTuple [SInt 31376; SStr "99999"]))).2
  = Return (JArr [Sample.section "31376" 2]).
Proof. reflexivity. Qed.

(** ** The loop and the refresher on the sample sessions *)

#[local] Abbreviation start := {| cat := init; gets := 0; refreshes := 0 |}.

#[local] Abbreviation on_cs421 f portal trig :=
  (f Urllib.urlparse_query Urllib.parse_qs portal
     (fun _ : nat => Sample.smooth (Some Sample.intercepted)) 3
     "Computer Science" "CS" (SInt 421) (Some (IdScalar (SInt 31375))) trig
     15%Z 10000%Z 4294967%Z).

#[local] Abbreviation refresh_cs421 pg self :=
  (refresh Urllib.urlparse_query Urllib.parse_qs 3 pg self
     "Computer Science" (SInt 421) 10000).

Lemma two_failures_terminate_witness :
  exists s2 tr,
    on_cs421 watch Sample.down None 2 start = (Finished (Return tt), s2, tr) /\
    List.filter is_refresh tr = [ERefresh "Computer Science" (SInt 421)] /\
    List.filter is_trigger tr = [].
Proof.
  pose (s1 := {| cat := Sample.refreshed; gets := 1; refreshes := 1 |}).
  assert (exists tr1, on_cs421 watch_step Sample.down None start = (Continue s1, tr1))
    as [tr1 Hstep1] by (eexists; vm_compute; reflexivity).
  destruct (on_cs421 two_failures_terminate Sample.down None 0 start start s1 [] tr1
              (ValueError (Some (KeyError "data")))
              (ValueError (Some (KeyError "data"))))
    as (s2 & tr2 & Hstep2 & Hr2 & Ht2 & Hr1 & Ht1 & Hwatch).
  - reflexivity.
  - vm_compute. reflexivity.
  - exact Hstep1.
  - vm_compute. reflexivity.
  - exists s2, ([] ++ tr1 ++ tr2)%list. split; [apply (Hwatch 0)|].
    rewrite app_nil_l, !List.filter_app, Hr1, Ht1, Hr2, Ht2. done.
Defined.

Lemma was_failed_transitions_witness :
  exists tr0 tr1,
    on_cs421 watch_step Sample.flaky None start
    = (Continue {| cat := Sample.refreshed; gets := 1; refreshes := 1 |}, tr0) /\
    on_cs421 watch_step Sample.flaky None
      {| cat := Sample.refreshed; gets := 1; refreshes := 1 |}
    = (Continue {| cat := Sample.recovered; gets := 2; refreshes := 1 |}, tr1) /\
    on_cs421 recovers Sample.flaky None
      {| cat := Sample.recovered; gets := 2; refreshes := 1 |}.
Proof.
  pose (s1 := {| cat := Sample.refreshed; gets := 1; refreshes := 1 |}).
  pose (s2 := {| cat := Sample.recovered; gets := 2; refreshes := 1 |}).
  assert (exists tr0, on_cs421 watch_step Sample.flaky None start = (Continue s1, tr0))
    as [tr0 Hstep0] by (eexists; vm_compute; reflexivity).
  assert (exists tr1, on_cs421 watch_step Sample.flaky None s1 = (Continue s2, tr1))
    as [tr1 Hstep1] by (eexists; vm_compute; reflexivity).
  destruct (proj2 (on_cs421 was_failed_transitions Sample.flaky None)
              start s1 s2 tr0 tr1
              (ValueError (Some (KeyError "data")))
              (JArr [Sample.section "31375" 0])
              (ValueError (Some (KeyError "data"))))
    as (_ & _ & _ & Hrec & _).
  - vm_compute. reflexivity.
  - exact Hstep0.
  - vm_compute. reflexivity.
  - exact Hstep1.
  - vm_compute. reflexivity.
  - exists tr0, tr1. split; [exact Hstep0|]. split; [exact Hstep1|exact Hrec].
Defined.

(** C5 fails as stated: a refresh that intercepts a request without a
    session id leaves the query params exactly as they were, the old
    session id included, although the request has none. *)
Lemma refresh_keeps_old_params :
  (refresh_cs421 (Sample.smooth (Some Sample.no_session)) Sample.used).1.2
  = Finished (Return tt) /\
  Urllib.parse_qs (Urllib.urlparse_query (url Sample.no_session))
    !! "uniqueSessionId" = None /\
  params (refresh_cs421 (Sample.smooth (Some Sample.no_session)) Sample.used).1.1
    !! "uniqueSessionId" = Some (SStr "old") /\
  params (refresh_cs421 (Sample.smooth (Some Sample.no_session)) Sample.used).1.1
  = params Sample.used /\
  headers (refresh_cs421 (Sample.smooth (Some Sample.no_session)) Sample.used).1.1
  = all_headers Sample.no_session.
Proof. repeat split; vm_compute; reflexivity. Qed.

Lemma refresh_credentials_witness :
  exists tr,
    refresh_cs421 (Sample.smooth (Some Sample.intercepted)) Sample.used
    = (Sample.refreshed, Finished (Return tt), tr) /\
    headers Sample.refreshed = all_headers Sample.intercepted /\
    params Sample.refreshed !! "txt_courseNumber"
    = params Sample.used !! "txt_courseNumber".
Proof.
  assert (exists tr,
             refresh_cs421 (Sample.smooth (Some Sample.intercepted)) Sample.used
             = (Sample.refreshed, Finished (Return tt), tr))
    as [tr Hrun] by (eexists; vm_compute; reflexivity).
  destruct (refresh_credentials Urllib.urlparse_query Urllib.parse_qs 3
              (Sample.smooth (Some Sample.intercepted)) Sample.used Sample.refreshed
              "Computer Science" (SInt 421) 10000 tr Sample.intercepted eq_refl Hrun)
    as (Hheaders & Hparams & Hframe).
  exists tr. split; [exact Hrun|]. split; [exact Hheaders|].
  by apply Hframe.
Defined.

Example session_id_of_intercepted :
  params (_update_params_from_request Urllib.urlparse_query Urllib.parse_qs init
            (Some Sample.intercepted)) !! "uniqueSessionId"
  = Some (SStr "abc123").
Proof. vm_compute. reflexivity. Qed.

Example session_id_absent :
  params (_update_params_from_request Urllib.urlparse_query Urllib.parse_qs init
            (Some Sample.no_session)) !! "uniqueSessionId"
  = None.
Proof. vm_compute. reflexivity. Qed.

Lemma updates_ignore_missing_request_witness :
  (refresh_cs421 (Sample.smooth None) Sample.used).1
  = (Sample.used, Finished (Return tt)).
Proof.
  destruct (updates_ignore_missing_request Urllib.urlparse_query Urllib.parse_qs
              Sample.used) as (_ & _ & Hrefresh).
  eapply Hrefresh; vm_compute; reflexivity.
Defined.

(** C8 fails as stated: with both buttons showing, a pass clicks nothing,
    and the loop is never left. *)
Lemma both_visible_never_trusts :
  is_visible Sample.both_visible 0 TryAgainBtn = true /\
  is_visible Sample.both_visible 1 TrustBtn = true /\
  duo_pass Sample.both_visible 10000 0 = (Finished (Return false), 4, []) /\
  ~ (exists fuel t tr,
       duo_wait fuel Sample.both_visible 10000 0 = (Finished (Return tt), t, tr)).
Proof.
  repeat split.
  intros (fuel & t & tr & Hexit).
  rewrite (duo_wait_stuck Sample.both_visible 10000 (fun _ _ => eq_refl)) in Hexit.
  discriminate.
Qed.

Lemma both_visible_spins_witness :
  duo_pass Sample.both_visible 10000 0 = (Finished (Return false), 4, []) /\
  forall fuel,
    duo_wait fuel Sample.both_visible 10000 0 = (OutOfFuel, 4 * fuel + 0, []).
Proof.
  destruct (both_visible_spins Sample.both_visible 10000 0)
    as (Hpass & Hstuck & _).
  split.
  - apply Hpass; reflexivity.
  - apply Hstuck. reflexivity.
Defined.

(** Neither button, twice, then the trust button: two idle waits and one
    trust click, no retry. *)
Example duo_wait_approved_later :
  duo_wait 3 Sample.approved_later 10000 0
  = (Finished (Return tt), 14,
     [EUi (WaitForTimeout 1000); EUi (WaitForTimeout 1000); EUi ClickTrust]).
Proof. vm_compute. reflexivity. Qed.

(** The default trigger on the two sample sections: a warning and five
    beeps when a seat is open, a debug line when none is. *)
Example default_trigger_alarm :
  default_trigger (JArr [Sample.section "31375" 0; Sample.section "31376" 2])
  = (ELog WARNING "SnowCat" "Course available with spots" :: beeps, Return tt).
Proof. reflexivity. Qed.

Example default_trigger_no_alarm :
  default_trigger (JArr [Sample.section "31375" 0])
  = ([ELog DEBUG "SnowCat" "Course available with spots"], Return tt).
Proof. reflexivity. Qed.

(** ** The logger *)

Lemma string_length_append (s1 s2 : string) :
  String.length (s1 ++ s2) = String.length s1 + String.length s2.
Proof. induction s1 as [|a s1 IH]; simpl; [done|]. by rewrite IH. Qed.

Lemma string_append_assoc (s1 s2 s3 : string) :
  (s1 ++ s2) ++ s3 = s1 ++ (s2 ++ s3).
Proof.
  induction s1 as [|a s1 IH]; [done|].
  change (String a ((s1 ++ s2) ++ s3) = String a (s1 ++ (s2 ++ s3))).
  by rewrite IH.
Qed.

Lemma spaces_length (n : nat) : String.length (Logger.spaces n) = n.
Proof. induction n as [|n IH]; simpl; [done|]. by rewrite IH. Qed.

Lemma level_map_lookup (name : string) :
  match Logger.level_map !! name with
  | Some n =>
      In (name, n) [("DEBUG", 0%Z); ("INFO", 1%Z); ("WARNING", 2%Z); ("ERROR", 3%Z)]
  | None => ~ In name ["DEBUG"; "INFO"; "WARNING"; "ERROR"]
  end.
Proof.
  unfold Logger.level_map.
  destruct (decide (name = "DEBUG")) as [->|H0];
    [rewrite lookup_insert_eq; simpl; tauto|].
  rewrite lookup_insert_ne by done.
  destruct (decide (name = "INFO")) as [->|H1];
    [rewrite lookup_insert_eq; simpl; tauto|].
  rewrite lookup_insert_ne by done.
  destruct (decide (name = "WARNING")) as [->|H2];
    [rewrite lookup_insert_eq; simpl; tauto|].
  rewrite lookup_insert_ne by done.
  destruct (decide (name = "ERROR")) as [->|H3];
    [rewrite lookup_singleton_eq; simpl; tauto|].
  rewrite lookup_singleton_ne by done. simpl. intuition congruence.
Qed.

Lemma time_stamp_last (self : Logger.t) (now : string) :
  Logger.last_time_stamp (Logger._time_stamp self now).1 = Some now /\
  Logger.level (Logger._time_stamp self now).1 = Logger.level self.
Proof.
  unfold Logger._time_stamp. destruct (Logger.last_time_stamp self) as [last|] eqn:Hlast;
    [|done].
  destruct (String.eqb last now) eqn:Heq; [|done].
  apply String.eqb_eq in Heq. subst. done.
Qed.

Lemma time_stamp_width (self : Logger.t) (now : string) :
  String.length (Logger._time_stamp self now).2 = String.length now.
Proof.
  unfold Logger._time_stamp. destruct (Logger.last_time_stamp self) as [last|];
    [|done].
  destruct (String.eqb last now); [apply spaces_length | done].
Qed.

(** A method prints exactly when its digit reaches the logger's level
    (DEBUG 0, INFO 1, WARNING 2, ERROR 3).  When it prints, it prints one
    line, returns that line, and remembers the stamp; when it does not, it
    returns the empty string and leaves the logger, its memory of the
    last stamp included, as it was. *)
Theorem logger_threshold (self : Logger.t) (now role message : string)
    (digit : Z) (method : Logger.t -> string -> string -> string ->
                           Logger.t * list string * string) :
  In (digit, method) Logger.methods ->
  if (Logger.level self <=? digit)%Z then
    exists self' text,
      method self now role message = (self', [text], text) /\
      text <> "" /\
      Logger.level self' = Logger.level self /\
      Logger.last_time_stamp self' = Some now
  else method self now role message = (self, [], "").
Proof.
  intros Hin. simpl in Hin.
  destruct (time_stamp_last self now) as [Hlast Hlevel].
  destruct Hin as [Heq|[Heq|[Heq|[Heq|[]]]]]; inversion Heq; subst;
    unfold Logger.debug, Logger.info, Logger.warning, Logger.error, Logger._do_print;
    (destruct (Logger.level self <=? _)%Z; [|done]);
    destruct (Logger._time_stamp self now) as [self' stamp]; simpl in *;
    eexists _, _; (split; [done|]); (split; [|done]);
    by destruct stamp.
Qed.

(** A logger can only be set to one of the four level names, at its
    creation or later; any other name raises [KeyError].  Its level is
    then between 0 and 3, so that [error] is never suppressed; a new
    logger has shown no stamp yet, and [set_level] keeps the memory of the
    last stamp. *)
Theorem logger_levels (name : string) :
  match Logger.__init__ name with
  | Return lg =>
      In name ["DEBUG"; "INFO"; "WARNING"; "ERROR"] /\
      (0 <= Logger.level lg <= 3)%Z /\
      Logger.last_time_stamp lg = None /\
      (forall now role message, (Logger.error lg now role message).1.2 <> [])
  | Raise e => e = KeyError name /\ ~ In name ["DEBUG"; "INFO"; "WARNING"; "ERROR"]
  end /\
  forall self,
    match Logger.set_level self name with
    | Return lg =>
        Logger.__init__ name
        = Return {| Logger.level := Logger.level lg; Logger.last_time_stamp := None |} /\
        Logger.last_time_stamp lg = Logger.last_time_stamp self
    | Raise e => e = KeyError name /\ Logger.__init__ name = Raise (KeyError name)
    end.
Proof.
  pose proof (level_map_lookup name) as Hmap.
  unfold Logger.__init__, Logger.set_level.
  destruct (Logger.level_map !! name) as [n|]; [|done].
  split; [|done].
  assert ((0 <= n <= 3)%Z /\ In name ["DEBUG"; "INFO"; "WARNING"; "ERROR"])
    as [Hrange Hname].
  { simpl in Hmap. simpl.
    destruct Hmap as [Heq|[Heq|[Heq|[Heq|[]]]]]; inversion Heq; subst;
      (split; [lia|tauto]). }
  split; [done|]. split; [done|]. split; [done|].
  intros now role message. unfold Logger.error, Logger._do_print. simpl.
  destruct (n <=? 3)%Z eqn:Hle; [done|lia].
Qed.

(** A stamp is shown once: the stamp field of a line always has the
    width of the current stamp; right after a line stamped [now], another
    line at [now] shows blanks instead and changes nothing, and a line at
    any other time shows its own stamp. *)
Theorem logger_stamp_shown_once (self : Logger.t) (now : string) :
  let shown := Logger._time_stamp self now in
  String.length shown.2 = String.length now /\
  (Logger.last_time_stamp self <> Some now -> shown.2 = now) /\
  Logger._time_stamp shown.1 now
  = (shown.1, Logger.spaces (String.length now)) /\
  forall later, later <> now -> (Logger._time_stamp shown.1 later).2 = later.
Proof.
  intros shown. subst shown.
  destruct (time_stamp_last self now) as [Hlast _].
  split; [apply time_stamp_width|]. split; [|split].
  - unfold Logger._time_stamp.
    destruct (Logger.last_time_stamp self) as [last|]; [|done].
    destruct (String.eqb last now) eqn:Heq; [|done].
    apply String.eqb_eq in Heq. by subst.
  - unfold Logger._time_stamp at 1. rewrite Hlast. by rewrite String.eqb_refl.
  - intros later Hlater. unfold Logger._time_stamp at 1. rewrite Hlast.
    destruct (String.eqb now later) eqn:Heq; [|done].
    apply String.eqb_eq in Heq. by subst.
Qed.

(** The lines of all four methods align: whatever the level and whether
    the stamp or blanks are shown, the role starts nineteen characters
    after the stamp field, and the line ends with the role in brackets, a
    colon and the message. *)
Theorem logger_lines_align (self : Logger.t) (now role message : string)
    (digit : Z) (method : Logger.t -> string -> string -> string ->
                           Logger.t * list string * string) :
  In (digit, method) Logger.methods ->
  (Logger.level self <= digit)%Z ->
  exists head,
    (method self now role message).2 = head ++ "[" ++ role ++ "]: " ++ message /\
    String.length head = String.length now + 19.
Proof.
  intros Hin Hle. simpl in Hin.
  pose proof (time_stamp_width self now) as Hwidth.
  destruct Hin as [Heq|[Heq|[Heq|[Heq|[]]]]]; inversion Heq; subst;
    unfold Logger.debug, Logger.info, Logger.warning, Logger.error, Logger._do_print;
    (destruct (Logger.level self <=? _)%Z eqn:Hdo; [|lia]);
    destruct (Logger._time_stamp self now) as [self' stamp]; simpl in *.
  - exists (stamp ++ " " ++ Logger._green (Logger._level "DEBUG")).
    split; [unfold Logger._role; by rewrite !string_append_assoc|].
    rewrite string_length_append, Hwidth. done.
  - exists (stamp ++ " " ++ Logger._blue (Logger._level "INFO")).
    split; [unfold Logger._role; by rewrite !string_append_assoc|].
    rewrite string_length_append, Hwidth. done.
  - exists (stamp ++ " " ++ Logger._yellow (Logger._level "WARNING")).
    split; [unfold Logger._role; by rewrite !string_append_assoc|].
    rewrite string_length_append, Hwidth. done.
  - exists (stamp ++ " " ++ Logger._red (Logger._level "ERROR")).
    split; [unfold Logger._role; by rewrite !string_append_assoc|].
    rewrite string_length_append, Hwidth. done.
Qed.

(** ** The further properties on the sample bodies and sessions *)

Lemma fetch_unfiltered_returns_data_witness :
  (fetch (Sample.answers Sample.successful) init "CS" (SInt 421) None).2
  = Return (JArr [Sample.section "31375" 0; Sample.section "31376" 2]).
Proof.
  apply (fetch_unfiltered_returns_data (Sample.answers Sample.successful) init "CS"
           (SInt 421) Sample.successful); reflexivity.
Defined.

Lemma fetch_filtered_result_witness :
  exists candidates,
    iterate (JArr [Sample.section "31375" 0; Sample.section "31376" 2])
    = Return candidates /\
    JArr [Sample.section "31376" 2]
    = JArr (List.filter (crn_among (normalize (IdList [SInt 31376]))) candidates).
Proof.
  destruct (fetch_filtered_result (Sample.answers Sample.successful) init "CS"
              (SInt 421) (IdList [SInt 31376]) (JArr [Sample.section "31376" 2])
              eq_refl)
    as (response & data & candidates & Hget & Hdata & Hiter & _ & Hret & _).
  inversion Hget; subst response. inversion Hdata; subst data.
  exists candidates. by split.
Defined.

Lemma fetch_malformed_candidate_raises_witness :
  exists e,
    (fetch (Sample.answers Sample.no_crn) init "CS" (SInt 421)
       (Some (IdScalar (SInt 31375)))).2 = Raise e.
Proof.
  apply (fetch_malformed_candidate_raises (Sample.answers Sample.no_crn) init "CS"
           (SInt 421) (IdScalar (SInt 31375)) Sample.no_crn
           [Sample.section "31375" 3; JObj [("seatsAvailable", JNum 1)]]
           (JObj [("seatsAvailable", JNum 1)])
           (KeyError "courseReferenceNumber")).
  - reflexivity.
  - reflexivity.
  - right. by left.
  - reflexivity.
Defined.

Lemma fetch_no_ids_returns_nothing_witness :
  (fetch (Sample.answers Sample.successful) init "CS" (SInt 421)
     (Some (IdSet []))).2 = Return (JArr []).
Proof.
  destruct (fetch (Sample.answers Sample.successful) init "CS" (SInt 421)
              (Some (IdSet []))).2 as [e|ret] eqn:Hret; [done|].
  by rewrite (fetch_no_ids_returns_nothing (Sample.answers Sample.successful) init
                "CS" (SInt 421) (IdSet []) ret eq_refl Hret).
Defined.

Lemma default_trigger_alarm_iff_witness :
  default_trigger (JArr [Sample.section "31375" 0; Sample.section "31376" 2])
  = (ELog WARNING "SnowCat" "Course available with spots" :: beeps, Return tt).
Proof.
  apply (default_trigger_alarm_iff
           [Sample.section "31375" 0; Sample.section "31376" 2]).
  repeat constructor; eexists _, _; repeat split; reflexivity.
Defined.

Lemma default_trigger_malformed_raises_witness :
  exists e,
    default_trigger (JArr [Sample.section "31375" 3;
                           JObj [("courseReferenceNumber", JStr "31376")]])
    = ([], Raise e).
Proof.
  apply (default_trigger_malformed_raises _
           (JObj [("courseReferenceNumber", JStr "31376")])
           (KeyError "seatsAvailable")).
  - right. by left.
  - reflexivity.
Defined.

Lemma trigger_error_leaves_watch_witness :
  exists s' tr,
    watch Urllib.urlparse_query Urllib.parse_qs
      (fun _ => Sample.answers Sample.no_seats)
      (fun _ => Sample.smooth (Some Sample.intercepted)) 3
      "Computer Science" "CS" (SInt 421) None None 15 10000 4294967 1 start
    = (Finished (Raise (KeyError "seatsAvailable")), s', tr) /\
    was_failed (cat s') = false.
Proof.
  destruct (trigger_error_leaves_watch Urllib.urlparse_query Urllib.parse_qs
              (fun _ => Sample.answers Sample.no_seats)
              (fun _ => Sample.smooth (Some Sample.intercepted)) 3
              "Computer Science" "CS" (SInt 421) None None 15 10000 4294967 start
              (JArr [Sample.section "31375" 3;
                     JObj [("courseReferenceNumber", JStr "31376")]])
              [] (KeyError "seatsAvailable") 0 eq_refl eq_refl)
    as (s' & Hrun & Hbit & _).
  by eexists s', _.
Defined.

Lemma refresh_error_leaves_watch_witness :
  exists s' tr,
    watch Urllib.urlparse_query Urllib.parse_qs Sample.down
      (fun _ => Sample.rejected) 3
      "Computer Science" "CS" (SInt 421) None None 15 10000 4294967 1 start
    = (Finished (Raise (LibraryError "TimeoutError")), s', tr) /\
    was_failed (cat s') = true.
Proof.
  destruct (refresh_error_leaves_watch Urllib.urlparse_query Urllib.parse_qs
              Sample.down (fun _ => Sample.rejected) 3
              "Computer Science" "CS" (SInt 421) None None 15 10000 4294967 start
              (ValueError (Some (KeyError "data")))
              (LibraryError "TimeoutError") 0)
    as (s' & tr & Hrun & Hbit & _).
  - vm_compute. reflexivity.
  - reflexivity.
  - vm_compute. reflexivity.
  - by exists s', tr.
Defined.

Lemma watch_returns_only_by_abort_witness :
  exists n s pre,
    n < 2 /\
    on_cs421 head_of_iteration Sample.down None n start = Some (s, pre) /\
    was_failed (cat s) = true.
Proof.
  assert (exists s' tr,
             on_cs421 watch Sample.down None 2 start = (Finished (Return tt), s', tr))
    as (s' & tr & Hrun) by (eexists _, _; vm_compute; reflexivity).
  destruct (on_cs421 watch_returns_only_by_abort Sample.down None 2 start s' tr Hrun)
    as (n & s & pre & e & Hn & Hhead & Hbit & _).
  by exists n, s, pre.
Defined.



Lemma watch_sleeps_only_after_trigger_witness :
  exists s' tr,
    on_cs421 watch_step (fun _ : nat => Sample.answers Sample.successful) None start
    = (Continue s', tr) /\
    last tr = Some (ESleep (15 * 1000)).
Proof.
  assert (exists s' tr,
             on_cs421 watch_step (fun _ : nat => Sample.answers Sample.successful)
               None start = (Continue s', tr))
    as (s' & tr & Hstep) by (eexists _, _; vm_compute; reflexivity).
  exists s', tr. split; [done|].
  exact (on_cs421 watch_sleeps_only_after_trigger
           (fun _ : nat => Sample.answers Sample.successful) None start s' tr Hstep).
Defined.

Lemma watch_params_frame_witness :
  exists s pre,
    on_cs421 head_of_iteration Sample.flaky None 1 start = Some (s, pre) /\
    params (cat s) !! "pageMaxSize" = params init !! "pageMaxSize" /\
    params (cat s) !! "txt_subject" = Some (SStr "CS").
Proof.
  assert (exists s pre,
             on_cs421 head_of_iteration Sample.flaky None 1 start = Some (s, pre))
    as (s & pre & Hhead) by (eexists _, _; vm_compute; reflexivity).
  destruct (on_cs421 watch_params_frame Sample.flaky None 1 start s pre Hhead)
    as [Hother Htarget].
  exists s, pre. split; [done|]. split.
  - apply Hother. simpl. intuition discriminate.
  - apply Htarget. lia.
Defined.

Lemma refresh_error_keeps_credentials_witness :
  (refresh_cs421 Sample.rejected Sample.used).1
  = (Sample.used, Finished (Raise (LibraryError "TimeoutError"))).
Proof.
  apply (refresh_error_keeps_credentials Urllib.urlparse_query Urllib.parse_qs 3
           Sample.rejected Sample.used "Computer Science" (SInt 421) 10000
           (LibraryError "TimeoutError")).
  vm_compute. reflexivity.
Defined.

Lemma refresh_close_error_keeps_update_witness :
  (refresh_cs421 Sample.close_fails Sample.used).1
  = (Sample.refreshed, Finished (Raise (LibraryError "Error"))).
Proof.
  assert (exists t tr,
             login_and_search 3 Sample.close_fails "Computer Science" (SInt 421)
               10000 0 = (Finished (Return (Some Sample.intercepted)), t, tr))
    as (t & tr & Hscript) by (eexists _, _; vm_compute; reflexivity).
  destruct (refresh_close_error_keeps_update Urllib.urlparse_query Urllib.parse_qs
              3 Sample.close_fails Sample.used "Computer Science" (SInt 421) 10000
              t tr (Some Sample.intercepted) (LibraryError "Error") Hscript eq_refl)
    as [Hrun _].
  rewrite Hrun. vm_compute. reflexivity.
Defined.

Lemma fetch_after_refresh_witness :
  exists p,
    hd_error (fetch (Sample.answers Sample.successful) Sample.refreshed "CS"
                (SInt 421) None).1.2
    = Some (EGet p (all_headers Sample.intercepted)) /\
    p !! "uniqueSessionId" = Some (SStr "abc123").
Proof.
  assert (exists tr,
             refresh_cs421 (Sample.smooth (Some Sample.intercepted)) Sample.used
             = (Sample.refreshed, Finished (Return tt), tr))
    as [tr Hrun] by (eexists; vm_compute; reflexivity).
  destruct (fetch_after_refresh Urllib.urlparse_query Urllib.parse_qs 3
              (Sample.smooth (Some Sample.intercepted)) Sample.used Sample.refreshed
              "Computer Science" (SInt 421) 10000 tr Sample.intercepted
              "abc123" [] (Sample.answers Sample.successful) "CS" (SInt 421) None
              eq_refl Hrun)
    as (p & Hsent & Hsession & _).
  - vm_compute. reflexivity.
  - by exists p.
Defined.


Lemma duo_wait_approved_after_witness :
  duo_wait 5 Sample.approved_later 10000 0
  = (Finished (Return tt), 14,
     [idle_wait 10000; idle_wait 10000; EUi ClickTrust]).
Proof.
  apply (duo_wait_approved_after Sample.approved_later 10000 2 2 0).
  - reflexivity.
  - intros [|[|i]] Hi; [reflexivity|reflexivity|lia].
  - reflexivity.
  - reflexivity.
  - reflexivity.
Defined.

Lemma duo_wait_exit_by_trust_witness :
  exists before u,
    (duo_wait 3 Sample.approved_later 10000 0).2
    = (before ++ [EUi ClickTrust])%list /\
    ~ In (EUi ClickTrust) before /\
    is_visible Sample.approved_later (S u) TrustBtn = true.
Proof.
  assert (exists t' tr,
             duo_wait 3 Sample.approved_later 10000 0
             = (Finished (Return tt), t', tr))
    as (t' & tr & Hrun) by (eexists _, _; vm_compute; reflexivity).
  destruct (duo_wait_exit_by_trust 3 Sample.approved_later 10000 0 t' tr Hrun)
    as (before & u & Htr & Hnot & _ & _ & Hshow).
  exists before, u. rewrite Hrun. by repeat split.
Defined.

Lemma pick_subject_returns_witness :
  exists k,
    (pick_subject 5 Sample.narrowing 10000 0).2
    = (replicate k (poll_wait 10000) ++ [EUi ClickFirstResult])%list /\
    results_count Sample.narrowing (2 * k + 0) = 1.
Proof.
  assert (exists t' tr,
             pick_subject 5 Sample.narrowing 10000 0
             = (Finished (Return tt), t', tr))
    as (t' & tr & Hrun) by (eexists _, _; vm_compute; reflexivity).
  destruct (pick_subject_returns 5 Sample.narrowing 10000 0 t' tr Hrun)
    as (k & _ & Hcount & _ & Htr & _).
  exists k. rewrite Hrun. by split.
Defined.

Lemma logger_threshold_witness :
  Logger.info {| Logger.level := 2; Logger.last_time_stamp := None |}
    "[11/03/26 10:00:00]" "fetch" "link reinitiated successfully"
  = ({| Logger.level := 2; Logger.last_time_stamp := None |}, [], "").
Proof.
  exact (logger_threshold {| Logger.level := 2; Logger.last_time_stamp := None |}
           "[11/03/26 10:00:00]" "fetch" "link reinitiated successfully"
           1%Z Logger.info (or_intror (or_introl eq_refl))).
Defined.

Lemma logger_lines_align_witness :
  exists head,
    (Logger.error {| Logger.level := 1; Logger.last_time_stamp := None |}
       "[11/03/26 10:00:00]" "SnowCat" "Exit due to").2
    = head ++ "[" ++ "SnowCat" ++ "]: " ++ "Exit due to" /\
    String.length head = 19 + 19.
Proof.
  apply (logger_lines_align {| Logger.level := 1; Logger.last_time_stamp := None |}
           "[11/03/26 10:00:00]" "SnowCat" "Exit due to" 3%Z Logger.error).
  - simpl. tauto.
  - simpl. lia.
Defined.
